(** * The language-server protocol layer of solc: Transport.cpp and LanguageServer.cpp

    A shallow embedding of [libsolidity/lsp/Transport.cpp] and
    [libsolidity/lsp/LanguageServer.cpp].  C++ member functions that mutate
    the object become state transformers over a record holding the members;
    C++ exceptions become the [Thrown] outcome of a small state-and-exception
    monad.  The JSON library, the compiler engine and the path mapping of the
    file repository are collaborators of these two files and come in through
    the [External] class. *)

From Stdlib Require Import ZArith Lia Ascii String.
From stdpp Require Import base option list strings gmap fin_maps sorting pretty.

Local Open Scope Z_scope.
Set Warnings "-register-all".

(** ** Byte strings: the operations of [std::string] the two files use *)

Module Str.

Definition nl : ascii := "010"%char.
Definition cr : ascii := "013"%char.

Fixpoint take (n : nat) (s : string) : string :=
  match n, s with
  | S n', String a s' => String a (take n' s')
  | _, _ => EmptyString
  end.

Fixpoint drop (n : nat) (s : string) : string :=
  match n, s with
  | S n', String _ s' => drop n' s'
  | _, _ => s
  end.

(** Index of the first [c] in [s]. *)
Fixpoint index_of (c : ascii) (s : string) : option nat :=
  match s with
  | EmptyString => None
  | String a s' => if Ascii.eqb a c then Some 0%nat else S <$> index_of c s'
  end.

(** Index of the last [c] in [s]. *)
Fixpoint last_index_of (c : ascii) (s : string) : option nat :=
  match s with
  | EmptyString => None
  | String a s' =>
      match last_index_of c s' with
      | Some i => Some (S i)
      | None => if Ascii.eqb a c then Some 0%nat else None
      end
  end.

(** [s.find(c, pos)]; [None] is [npos]. *)
Definition find (c : ascii) (s : string) (pos : nat) : option nat :=
  (fun i => (pos + i)%nat) <$> index_of c (drop pos s).

(** [s.rfind(c, pos)]: the last [c] at an index not above [pos]. *)
Definition rfind (c : ascii) (s : string) (pos : nat) : option nat :=
  last_index_of c (take (S pos) s).

(** [std::count(s.begin(), s.begin() + n, c)]. *)
Fixpoint count (c : ascii) (s : string) : nat :=
  match s with
  | EmptyString => 0%nat
  | String a s' => ((if Ascii.eqb a c then 1 else 0) + count c s')%nat
  end.

(** [boost::starts_with(s, p)]. *)
Definition starts_with (s p : string) : bool := String.prefix p s.

(** [std::isspace] in the classic locale. *)
Definition is_space (a : ascii) : bool :=
  let n := nat_of_ascii a in
  ((n =? 32) || ((9 <=? n) && (n <=? 13)))%nat.

Fixpoint trim_left (s : string) : string :=
  match s with
  | String a s' => if is_space a then trim_left s' else s
  | EmptyString => EmptyString
  end.

Fixpoint trim_right (s : string) : string :=
  match s with
  | String a s' =>
      match trim_right s' with
      | EmptyString => if is_space a then EmptyString else String a EmptyString
      | t => String a t
      end
  | EmptyString => EmptyString
  end.

(** [boost::trim_copy]. *)
Definition trim_copy (s : string) : string := trim_right (trim_left s).

Definition lower (a : ascii) : ascii :=
  let n := nat_of_ascii a in
  if ((65 <=? n) && (n <=? 90))%nat then ascii_of_nat (n + 32) else a.

(** [boost::to_lower_copy]. *)
Fixpoint to_lower_copy (s : string) : string :=
  match s with
  | String a s' => String (lower a) (to_lower_copy s')
  | EmptyString => EmptyString
  end.

Definition is_empty (s : string) : bool :=
  match s with EmptyString => true | _ => false end.

Definition crlf : string := String cr (String nl EmptyString).

End Str.

(** ** JSON values (jsoncpp's [Json::Value])

    Integers stand for jsoncpp's signed and unsigned integer kinds;
    real numbers are left out.  An object keeps its members ordered by key,
    as the [std::map] inside jsoncpp does. *)

Inductive Json : Type :=
| JNull
| JBool (b : bool)
| JInt (n : Z)
| JString (s : string)
| JArray (items : list Json)
| JObject (members : list (string * Json)).

(** What a C++ exception object tells [catch (std::exception const&)]. *)
Inductive Exception : Type :=
| Exn (what : string).

Definition what (e : Exception) : string := match e with Exn w => w end.

(** The result of a call that may leave through an exception. *)
Inductive Outcome (A : Type) : Type :=
| Ok (a : A)
| Thrown (e : Exception).
Arguments Ok {A} a.
Arguments Thrown {A} e.

Module Json.

Definition isNull (j : Json) : bool := match j with JNull => true | _ => false end.
Definition isObject (j : Json) : bool := match j with JObject _ => true | _ => false end.

Definition minInt : Z := - 2 ^ 31.
Definition maxInt : Z := 2 ^ 31 - 1.

(** [isInt()]: an integer that fits [int]. *)
Definition isInt (j : Json) : bool :=
  match j with JInt n => (minInt <=? n) && (n <=? maxInt) | _ => false end.

Fixpoint assoc (k : string) (ms : list (string * Json)) : option Json :=
  match ms with
  | [] => None
  | (k', v) :: ms' => if String.eqb k k' then Some v else assoc k ms'
  end.

Fixpoint insert (k : string) (v : Json) (ms : list (string * Json)) : list (string * Json) :=
  match ms with
  | [] => [(k, v)]
  | (k', v') :: ms' =>
      match String.compare k k' with
      | Lt => (k, v) :: ms
      | Eq => (k, v) :: ms'
      | Gt => (k', v') :: insert k v ms'
      end
  end.

Definition requiresObject : Exception :=
  Exn "in Json::Value::find(begin, end): requires objectValue or nullValue".
Definition notConvertibleToString : Exception :=
  Exn "Type is not convertible to string".
Definition outOfIntRange : Exception :=
  Exn "LargestInt out of Int range".
Definition notConvertibleToInt : Exception :=
  Exn "Value is not convertible to Int.".

(** [j[key]] on a [const] value: the member, the null value when there is
    none or when [j] is null; any other kind of [j] raises. *)
Definition get (key : string) (j : Json) : Outcome Json :=
  match j with
  | JNull => Ok JNull
  | JObject ms => Ok (default JNull (assoc key ms))
  | _ => Thrown requiresObject
  end.

(** [j[key]] read on a value already known to be an object or null. *)
Definition member (key : string) (j : Json) : Json :=
  match j with
  | JObject ms => default JNull (assoc key ms)
  | _ => JNull
  end.

(** [j[key] = v] on a value that is null or an object (every call site
    starts from a freshly constructed value). *)
Definition set (key : string) (v : Json) (j : Json) : Json :=
  match j with
  | JObject ms => JObject (insert key v ms)
  | _ => JObject [(key, v)]
  end.

(** [j.append(v)] on a value that is null or an array. *)
Definition append (v : Json) (j : Json) : Json :=
  match j with
  | JArray l => JArray (l ++ [v])
  | _ => JArray [v]
  end.

Definition asString (j : Json) : Outcome string :=
  match j with
  | JNull => Ok EmptyString
  | JString s => Ok s
  | JBool b => Ok (if b then "true" else "false")
  | JInt n => Ok (pretty n)
  | JArray _ | JObject _ => Thrown notConvertibleToString
  end.

Definition asInt (j : Json) : Outcome Z :=
  match j with
  | JInt n => if (minInt <=? n) && (n <=? maxInt) then Ok n else Thrown outOfIntRange
  | JNull => Ok 0
  | JBool b => Ok (if b then 1 else 0)
  | _ => Thrown notConvertibleToInt
  end.

(** The values a range-based [for] visits: the items of an array, the
    member values of an object, nothing for any other kind. *)
Definition elements (j : Json) : list Json :=
  match j with
  | JArray l => l
  | JObject ms => ms.*2
  | _ => []
  end.

End Json.

(** ** The state-and-exception monad of the member functions *)

Definition M (S A : Type) : Type := S -> Outcome A * S.

Definition ret {S A} (a : A) : M S A := fun s => (Ok a, s).

Definition bind {S A B} (c : M S A) (k : A -> M S B) : M S B :=
  fun s => match c s with
           | (Ok a, s') => k a s'
           | (Thrown e, s') => (Thrown e, s')
           end.

Definition throw {S A} (e : Exception) : M S A := fun s => (Thrown e, s).

(** A pure computation that may raise. *)
Definition lift {S A} (o : Outcome A) : M S A := fun s => (o, s).

Definition gets {S A} (f : S -> A) : M S A := fun s => (Ok (f s), s).

Definition modify {S} (f : S -> S) : M S unit := fun s => (Ok tt, f s).

Notation "'let*' x ':=' c 'in' k" := (bind c (fun x => k))
  (at level 10, x pattern, c at level 100, k at level 200).
Notation "c ';;' k" := (bind c (fun _ => k))
  (at level 100, k at level 200, right associativity).

(** ** Collaborators outside the two files *)

(** Modelled from the spec: the headers [liblangutil/SourceLocation.h] and
    [liblangutil/Exceptions.h] are not part of the two files.  A location is
    a document name plus a byte range, [-1] standing for an absent offset;
    it has text when it names a document and [0 <= start <= end]. *)
Record SourceLocation : Type := {
  loc_start : Z;
  loc_end : Z;
  sourceName : option string
}.

Definition hasText (l : SourceLocation) : bool :=
  bool_decide (is_Some (sourceName l)) && (0 <=? loc_start l) && (loc_start l <=? loc_end l).

(** Modelled from the spec: the three severities of [Error::Severity]. *)
Inductive Severity : Type := SeverityError | SeverityWarning | SeverityInfo.

(** Modelled from the spec: a diagnostic of the compiler engine carries a
    severity, a numeric code, the name of its kind, an optional comment, an
    optional primary location and optional secondary (message, location)
    pairs. *)
Record Error : Type := {
  errorSeverity : Severity;
  errorId : N;
  typeName : string;
  comment : option string;
  sourceLocation : option SourceLocation;
  secondarySourceLocation : option (list (string * SourceLocation))
}.

(** Modelled from the spec: what the dispatcher reads back from the compiler
    engine after a run, the texts it analysed, by source unit name, and the
    diagnostics. *)
Record CompilerStack : Type := {
  sources : gmap string string;
  errors : list Error
}.

Class External : Type := {
  (** [solidity::util::jsonCompactPrint] *)
  jsonCompactPrint : Json -> string;
  (** [solidity::util::jsonParseStrict]: the parsed value and the error text,
      empty when the text is valid JSON *)
  jsonParseStrict : string -> Json * string;
  (** [FileRepository::clientPathToSourceUnitName], from the base path and the
      client path *)
  clientPathToSourceUnitName : string -> string -> string;
  (** the client path the file repository derives from the base path for a
      source unit it has no recorded client path for *)
  derivedClientPath : string -> string -> string;
  (** [reset], [setSources] and [compile(AnalysisPerformed)] of the compiler
      engine on the given source units *)
  analyse : gmap string string -> CompilerStack;
  (** the missing-source failure of [CompilerStack::charStream] *)
  sourceNotFound : Exception;
  (** the failure of [solAssert] *)
  assertionFailed : Exception;
  VersionNumber : string
}.

(** Modelled from the spec: [Transport.h] is not part of the two files; the
    error codes are the JSON-RPC and LSP assignments. *)
Inductive ErrorCode : Type :=
| ParseError | MethodNotFound | InvalidParams | InternalError | RequestFailed.

Definition errorCodeValue (c : ErrorCode) : Z :=
  match c with
  | ParseError => -32700
  | MethodNotFound => -32601
  | InvalidParams => -32602
  | InternalError => -32603
  | RequestFailed => -32803
  end.

Definition MessageID : Type := Json.

(** ** Transport.cpp *)

(** A [std::istream] over the bytes not yet read, with its state bits. *)
Record IStream : Type := {
  unread : string;
  eofbit : bool;
  failbit : bool
}.

(** A [std::ostream]: what has been written since the last flush, and what
    has been flushed to the peer. *)
Record OStream : Type := {
  pending : string;
  flushed : string
}.

Definition good (i : IStream) : bool := negb (eofbit i) && negb (failbit i).

(** [std::getline(in, line)] into a fresh [line]. *)
Definition getline (i : IStream) : string * IStream :=
  if good i then
    match Str.index_of Str.nl (unread i) with
    | Some k =>
        (Str.take k (unread i),
         {| unread := Str.drop (S k) (unread i); eofbit := false; failbit := false |})
    | None =>
        (unread i,
         {| unread := EmptyString; eofbit := true;
            failbit := Str.is_empty (unread i) |})
    end
  else (EmptyString, {| unread := unread i; eofbit := eofbit i; failbit := true |}).

(** Modelled from the spec: [util::readBytes] of [libsolutil/CommonIO] is not
    part of the two files; it reads exactly [n] bytes, or what is left when
    the stream ends before that. *)
Definition readBytes (i : IStream) (n : nat) : string * IStream :=
  if good i then
    if (n <=? String.length (unread i))%nat then
      (Str.take n (unread i),
       {| unread := Str.drop n (unread i); eofbit := false; failbit := false |})
    else
      (unread i, {| unread := EmptyString; eofbit := true; failbit := true |})
  else (EmptyString, {| unread := unread i; eofbit := eofbit i; failbit := true |}).

Definition write (s : string) (o : OStream) : OStream :=
  {| pending := pending o +:+ s; flushed := flushed o |}.

Definition flush (o : OStream) : OStream :=
  {| pending := EmptyString; flushed := flushed o +:+ pending o |}.

Record JSONTransport : Type := {
  m_input : IStream;
  m_output : OStream
}.

Definition withInput (i : IStream) (t : JSONTransport) : JSONTransport :=
  {| m_input := i; m_output := m_output t |}.
Definition withOutput (o : OStream) (t : JSONTransport) : JSONTransport :=
  {| m_input := m_input t; m_output := o |}.

(** [JSONTransport::closed] *)
Definition closed (t : JSONTransport) : bool := eofbit (m_input t).

(** [std::stoul]: leading white space, an optional sign, then decimal digits;
    what follows the digits is ignored. *)
Definition digit (a : ascii) : option N :=
  let n := N_of_ascii a in
  if ((48 <=? n) && (n <=? 57))%N then Some (n - 48)%N else None.

Fixpoint digits (acc : option N) (s : string) : option N :=
  match s with
  | String a s' =>
      match digit a with
      | Some d => digits (Some (10 * default 0 acc + d)%N) s'
      | None => acc
      end
  | EmptyString => acc
  end.

Definition stoul (s : string) : Outcome N :=
  let s := Str.trim_left s in
  let '(negative, s) :=
    match s with
    | String "-"%char s' => (true, s')
    | String "+"%char s' => (false, s')
    | _ => (false, s)
    end in
  match digits None s with
  | None => Thrown (Exn "stoul")
  | Some n =>
      if (n <? 2 ^ 64)%N
      then Ok (if negative then (2 ^ 64 - n) mod 2 ^ 64 else n)%N
      else Thrown (Exn "stoul")
  end.

Section Transport.

Context `{External}.

(** [JSONTransport::send] *)
Definition send (_json : Json) (_id : MessageID) (t : JSONTransport) : JSONTransport :=
  let _json := Json.set "jsonrpc" (JString "2.0") _json in
  let _json := if negb (Json.isNull _id) then Json.set "id" _id _json else _json in
  let jsonString := jsonCompactPrint _json in
  let o := m_output t in
  let o := write Str.crlf
             (write (pretty (N.of_nat (String.length jsonString)))
                (write "Content-Length: " o)) in
  let o := write Str.crlf o in
  let o := write jsonString o in
  withOutput (flush o) t.

(** [JSONTransport::notify]; the id defaults to the null value. *)
Definition notify (_method : string) (_message : Json) (t : JSONTransport) : JSONTransport :=
  let json := Json.set "method" (JString _method) JNull in
  let json := Json.set "params" _message json in
  send json JNull t.

(** [JSONTransport::reply] *)
Definition reply (_id : MessageID) (_message : Json) (t : JSONTransport) : JSONTransport :=
  let json := Json.set "result" _message JNull in
  send json _id t.

(** [JSONTransport::error] *)
Definition error (_id : MessageID) (_code : ErrorCode) (_message : string)
    (t : JSONTransport) : JSONTransport :=
  let json :=
    Json.set "error" (Json.set "code" (JInt (errorCodeValue _code)) JNull) JNull in
  let json :=
    Json.set "error"
      (Json.set "message" (JString _message) (Json.member "error" json)) json in
  send json _id t.

(** The [while (true)] of [JSONTransport::parseHeaders]; [None] when the
    iteration bound is used up. *)
Fixpoint parseHeadersLoop (bound : nat) (headers : gmap string string) (i : IStream)
    : option (option (gmap string string) * IStream) :=
  match bound with
  | O => None
  | S bound' =>
      let '(line, i) := getline i in
      if Str.is_empty (Str.trim_copy line) then Some (Some headers, i)
      else
        match Str.index_of ":"%char line with
        | None => Some (None, i)
        | Some delimiterPos =>
            let name := Str.to_lower_copy (Str.take delimiterPos line) in
            let value := Str.trim_copy (Str.drop (S delimiterPos) line) in
            parseHeadersLoop bound' (<[name := value]> headers) i
        end
  end.

(** [JSONTransport::parseHeaders].  Every pass of the loop that does not
    leave it takes at least one byte from the stream, so one pass more than
    there are unread bytes is enough ([parseHeadersLoop_bound]). *)
Definition parseHeaders (i : IStream) : option (gmap string string) * IStream :=
  default (None, i) (parseHeadersLoop (S (String.length (unread i))) ∅ i).

(** [JSONTransport::receive] *)
Definition receive : M JSONTransport (option Json) :=
  let* headers := (fun t => let '(h, i) := parseHeaders (m_input t) in (Ok h, withInput i t)) in
  match headers with
  | None =>
      modify (error JNull ParseError "Could not parse RPC headers.");;
      ret None
  | Some headers =>
      match headers !! "content-length" with
      | None =>
          modify (error JNull ParseError "No content-length header found.");;
          ret None
      | Some contentLength =>
          let* length := lift (stoul contentLength) in
          let* data := (fun t => let '(d, i) := readBytes (m_input t) (N.to_nat length) in
                                 (Ok d, withInput i t)) in
          let '(jsonMessage, errs) := jsonParseStrict data in
          if negb (Str.is_empty errs) then
            modify (error JNull ParseError ("Could not parse RPC JSON payload. " +:+ errs));;
            ret None
          else ret (Some jsonMessage)
      end
  end.

End Transport.

(** ** Position translation (liblangutil's [CharStream]) *)

(** Modelled from the spec: [liblangutil]'s [LineColumn] is not part of the
    two files; a pair of a line and a character, both [int]. *)
Record LineColumn : Type := {
  line : Z;
  column : Z
}.

(** Modelled from the spec: the default-constructed [LineColumn{}], a
    sentinel with negative components. *)
Definition noLineColumn : LineColumn := {| line := -1; column := -1 |}.

(** Modelled from the spec: the scan of [translateLineColumnToPosition] for
    the start of a line, the offset reached after skipping [n] line feeds
    from [offset]. *)
Fixpoint seekLine (text : string) (n : nat) (offset : nat) : option nat :=
  match n with
  | O => Some offset
  | S n' =>
      match Str.find Str.nl text offset with
      | None => None
      | Some p => seekLine text n' (S p)
      end
  end.

(** Modelled from the spec: [CharStream::translateLineColumnToPosition] is not
    part of the two files.  It scans the text for the offset of the given
    zero-based line and character and finds none when the coordinate lies
    beyond the text: a line the text does not have, or a character past the
    end of its line. *)
Definition translateLineColumnToPosition (text : string) (input : LineColumn) : option Z :=
  if (line input <? 0) || (column input <? 0) then None
  else
    match seekLine text (Z.to_nat (line input)) 0 with
    | None => None
    | Some offset =>
        let endOfLine := default (String.length text) (Str.find Str.nl text offset) in
        if (endOfLine <? offset + Z.to_nat (column input))%nat then None
        else Some (Z.of_nat (offset + Z.to_nat (column input)))
    end.

(** Modelled from the spec: [CharStream::translatePositionToLineColumn] is not
    part of the two files.  It is the inverse mapping: the number of line
    feeds before the offset, and the distance of the offset from the start of
    its line.  An offset outside the text counts as the end of the text. *)
Definition translatePositionToLineColumn (source : string) (position : Z) : LineColumn :=
  let searchPosition :=
    if position <? 0 then String.length source
    else Nat.min (String.length source) (Z.to_nat position) in
  let lineNumber := Str.count Str.nl (Str.take searchPosition source) in
  let lineStart :=
    match searchPosition with
    | O => O
    | S before => match Str.rfind Str.nl source before with
                  | None => O
                  | Some k => S k
                  end
    end in
  {| line := Z.of_nat lineNumber; column := Z.of_nat (searchPosition - lineStart) |}.

(** ** The document store *)

(** Modelled from the spec: [FileRepository] is not part of the two files.
    It owns the base path, the mapping between source unit names and client
    paths, and the current text of every document by source unit name. *)
Record FileRepository : Type := {
  basePath : string;
  sourceUnitNamesToClientPaths : gmap string string;
  sourceUnits : gmap string string
}.

(** The keys of a [std::map<string, string>] in the order a loop visits
    them, which is the order of the keys. *)
Definition keys (m : gmap string string) : list string :=
  merge_sort String.le (map_to_list m).*1.

Section FileRepository.

Context `{External}.

(** Modelled from the spec: [FileRepository::setBasePath]. *)
Definition setBasePath (path : string) (r : FileRepository) : FileRepository :=
  {| basePath := path;
     sourceUnitNamesToClientPaths := sourceUnitNamesToClientPaths r;
     sourceUnits := sourceUnits r |}.

(** Modelled from the spec: [FileRepository::sourceUnitNameToClientPath], the
    client path recorded for the source unit, or the one derived from the
    base path when none is recorded. *)
Definition sourceUnitNameToClientPath (r : FileRepository) (name : string) : string :=
  default (derivedClientPath (basePath r) name) (sourceUnitNamesToClientPaths r !! name).

(** Modelled from the spec: [FileRepository::setSourceByClientPath] records
    the given text under the given client path. *)
Definition setSourceByClientPath (uri text : string) (r : FileRepository) : FileRepository :=
  let name := clientPathToSourceUnitName (basePath r) uri in
  {| basePath := basePath r;
     sourceUnitNamesToClientPaths := <[name := uri]> (sourceUnitNamesToClientPaths r);
     sourceUnits := <[name := text]> (sourceUnits r) |}.

End FileRepository.

(** ** LanguageServer.cpp *)
Record LanguageServer : Type := {
  m_client : JSONTransport;
  m_fileRepository : FileRepository;
  m_compilerStack : CompilerStack;
  m_settingsObject : Json;
  m_shutdownRequested : bool;
  m_exitRequested : bool
}.

Definition onClient (f : JSONTransport -> JSONTransport) (s : LanguageServer) : LanguageServer :=
  {| m_client := f (m_client s); m_fileRepository := m_fileRepository s;
     m_compilerStack := m_compilerStack s; m_settingsObject := m_settingsObject s;
     m_shutdownRequested := m_shutdownRequested s; m_exitRequested := m_exitRequested s |}.

Definition onFileRepository (f : FileRepository -> FileRepository) (s : LanguageServer)
    : LanguageServer :=
  {| m_client := m_client s; m_fileRepository := f (m_fileRepository s);
     m_compilerStack := m_compilerStack s; m_settingsObject := m_settingsObject s;
     m_shutdownRequested := m_shutdownRequested s; m_exitRequested := m_exitRequested s |}.

Definition setCompilerStack (c : CompilerStack) (s : LanguageServer) : LanguageServer :=
  {| m_client := m_client s; m_fileRepository := m_fileRepository s;
     m_compilerStack := c; m_settingsObject := m_settingsObject s;
     m_shutdownRequested := m_shutdownRequested s; m_exitRequested := m_exitRequested s |}.

Definition setSettingsObject (j : Json) (s : LanguageServer) : LanguageServer :=
  {| m_client := m_client s; m_fileRepository := m_fileRepository s;
     m_compilerStack := m_compilerStack s; m_settingsObject := j;
     m_shutdownRequested := m_shutdownRequested s; m_exitRequested := m_exitRequested s |}.

Definition setShutdownRequested (b : bool) (s : LanguageServer) : LanguageServer :=
  {| m_client := m_client s; m_fileRepository := m_fileRepository s;
     m_compilerStack := m_compilerStack s; m_settingsObject := m_settingsObject s;
     m_shutdownRequested := b; m_exitRequested := m_exitRequested s |}.

Definition setExitRequested (b : bool) (s : LanguageServer) : LanguageServer :=
  {| m_client := m_client s; m_fileRepository := m_fileRepository s;
     m_compilerStack := m_compilerStack s; m_settingsObject := m_settingsObject s;
     m_shutdownRequested := m_shutdownRequested s; m_exitRequested := b |}.

(** [toJson(LineColumn)] *)
Definition toJson (_pos : LineColumn) : Json :=
  let json := JObject [] in
  let json := Json.set "line" (JInt (Z.max (line _pos) 0)) json in
  let json := Json.set "character" (JInt (Z.max (column _pos) 0)) json in
  json.

(** [toJsonRange] *)
Definition toJsonRange (_start _end : LineColumn) : Json :=
  let json := Json.set "start" (toJson _start) JNull in
  let json := Json.set "end" (toJson _end) json in
  json.

(** The [int] of a value that [isInt()] has accepted. *)
Definition intOf (j : Json) : Z := match j with JInt n => n | _ => 0 end.

(** [parseLineColumn] *)
Definition parseLineColumn (_lineColumn : Json) : option LineColumn :=
  if Json.isObject _lineColumn
     && Json.isInt (Json.member "line" _lineColumn)
     && Json.isInt (Json.member "character" _lineColumn)
  then Some {| line := intOf (Json.member "line" _lineColumn);
               column := intOf (Json.member "character" _lineColumn) |}
  else None.

(** [toDiagnosticSeverity]: 1=Error, 2=Warning, 3=Info *)
Definition toDiagnosticSeverity (s : Severity) : Z :=
  match s with
  | SeverityError => 1
  | SeverityWarning => 2
  | SeverityInfo => 3
  end.

(** A loop over a list with the local variables of the body in [b]. *)
Fixpoint foldM {S A B} (body : B -> A -> M S B) (l : list A) (b : B) : M S B :=
  match l with
  | [] => ret b
  | x :: l' => let* b' := body b x in foldM body l' b'
  end.

(** How the body of a loop inside a function ends: it goes on to the next
    element, or the function returns. *)
Inductive Flow : Type := Next | Return.

Fixpoint forEach {S A} (body : A -> M S Flow) (l : list A) : M S Flow :=
  match l with
  | [] => ret Next
  | x :: l' =>
      let* flow := body x in
      match flow with
      | Next => forEach body l'
      | Return => ret Return
      end
  end.

(** Sequencing of pure computations that may raise. *)
Definition andThen {A B} (o : Outcome A) (k : A -> Outcome B) : Outcome B :=
  match o with
  | Ok a => k a
  | Thrown e => Thrown e
  end.

Notation "x <- o ; k" := (andThen o (fun x => k))
  (at level 10, o at level 100, k at level 200, only parsing).

Fixpoint foldOutcome {A B} (body : B -> A -> Outcome B) (l : list A) (b : B) : Outcome B :=
  match l with
  | [] => Ok b
  | x :: l' => b' <- body b x; foldOutcome body l' b'
  end.

Section LanguageServer.

Context `{External}.

(** [LanguageServer::parsePosition] *)
Definition parsePosition (r : FileRepository) (_sourceUnitName : string) (_position : Json)
    : option SourceLocation :=
  match sourceUnits r !! _sourceUnitName with
  | None => None
  | Some text =>
      match parseLineColumn _position with
      | Some lineColumn =>
          match translateLineColumnToPosition text lineColumn with
          | Some offset =>
              Some {| loc_start := offset; loc_end := offset;
                      sourceName := Some _sourceUnitName |}
          | None => None
          end
      | None => None
      end
  end.

(** [LanguageServer::parseRange]; past the first test the range is an
    object, so its members can be read.  The assertion of the source
    compares two copies of [_sourceUnitName]. *)
Definition parseRange (r : FileRepository) (_sourceUnitName : string) (_range : Json)
    : option SourceLocation :=
  if negb (Json.isObject _range) then None
  else
    let start := parsePosition r _sourceUnitName (Json.member "start" _range) in
    let end_ := parsePosition r _sourceUnitName (Json.member "end" _range) in
    match start, end_ with
    | Some start, Some end_ =>
        Some {| loc_start := loc_start start; loc_end := loc_end end_;
                sourceName := sourceName start |}
    | _, _ => None
    end.

(** Modelled from the spec: [CompilerStack::charStream], the text of a source
    of the engine; it raises for a name the engine has no source for. *)
Definition charStream (c : CompilerStack) (name : string) : Outcome string :=
  match sources c !! name with
  | Some text => Ok text
  | None => Thrown sourceNotFound
  end.

(** [LanguageServer::toRange] *)
Definition toRange (c : CompilerStack) (_location : SourceLocation) : Outcome Json :=
  if negb (hasText _location) then Ok (toJsonRange noLineColumn noLineColumn)
  else
    match sourceName _location with
    | None => Thrown assertionFailed
    | Some name =>
        stream <- charStream c name;
        let start := translatePositionToLineColumn stream (loc_start _location) in
        let end_ := translatePositionToLineColumn stream (loc_end _location) in
        Ok (toJsonRange start end_)
    end.

(** [LanguageServer::toJson(SourceLocation)] *)
Definition toJsonLocation (r : FileRepository) (c : CompilerStack)
    (_location : SourceLocation) : Outcome Json :=
  match sourceName _location with
  | None => Thrown assertionFailed
  | Some name =>
      let item := JObject [] in
      let item := Json.set "uri" (JString (sourceUnitNameToClientPath r name)) item in
      range <- toRange c _location;
      Ok (Json.set "range" range item)
  end.

(** [LanguageServer::changeConfiguration] *)
Definition changeConfiguration (_settings : Json) : M LanguageServer unit :=
  modify (setSettingsObject _settings).

(** [LanguageServer::compile] *)
Definition compile : M LanguageServer unit :=
  modify (fun s => setCompilerStack (analyse (sourceUnits (m_fileRepository s))) s).

(** A call of a member function of [m_client]. *)
Definition onTransport {A} (c : M JSONTransport A) : M LanguageServer A :=
  fun s => let '(a, t) := c (m_client s) in (a, onClient (fun _ => t) s).

(** One pass of the loop over the secondary locations of a diagnostic. *)
Definition relatedInformation (r : FileRepository) (c : CompilerStack)
    (jsonDiag : Json) (info : string * SourceLocation) : Outcome Json :=
  let '(secondaryMessage, secondaryLocation) := info in
  let jsonRelated := Json.set "message" (JString secondaryMessage) JNull in
  location <- toJsonLocation r c secondaryLocation;
  let jsonRelated := Json.set "location" location jsonRelated in
  Ok (Json.set "relatedInformation"
        (Json.append jsonRelated (Json.member "relatedInformation" jsonDiag)) jsonDiag).

(** The [jsonDiag] that a pass of the loop over [m_compilerStack.errors()]
    builds for an error with the location [location]. *)
Definition diagnostic (r : FileRepository) (c : CompilerStack)
    (error : Error) (location : SourceLocation) : Outcome Json :=
  let jsonDiag := Json.set "source" (JString "solc") JNull in
  let jsonDiag :=
    Json.set "severity" (JInt (toDiagnosticSeverity (errorSeverity error))) jsonDiag in
  let jsonDiag := Json.set "code" (JInt (Z.of_N (errorId error))) jsonDiag in
  let message := typeName error +:+ ":" in
  let message :=
    match comment error with
    | Some comment => message +:+ " " +:+ comment
    | None => message
    end in
  let jsonDiag := Json.set "message" (JString message) jsonDiag in
  range <- toRange c location;
  let jsonDiag := Json.set "range" range jsonDiag in
  match secondarySourceLocation error with
  | Some infos => foldOutcome (relatedInformation r c) infos jsonDiag
  | None => Ok jsonDiag
  end.

(** One pass of the loop over [m_compilerStack.errors()]. *)
Definition diagnose (diagnosticsBySourceUnit : gmap string Json) (error : Error)
    : M LanguageServer (gmap string Json) :=
  match sourceLocation error with
  | None => ret diagnosticsBySourceUnit
  | Some location =>
      match sourceName location with
      | None => ret diagnosticsBySourceUnit
      | Some name =>
          let* r := gets m_fileRepository in
          let* c := gets m_compilerStack in
          let* jsonDiag := lift (diagnostic r c error location) in
          ret (<[name := Json.append jsonDiag (default JNull (diagnosticsBySourceUnit !! name))]>
                 diagnosticsBySourceUnit)
      end
  end.

(** One pass of the publishing loop; [at] raises on a missing key. *)
Definition publish (diagnosticsBySourceUnit : gmap string Json) (sourceUnitName : string)
    : M LanguageServer unit :=
  let* r := gets m_fileRepository in
  let params := Json.set "uri" (JString (sourceUnitNameToClientPath r sourceUnitName)) JNull in
  let* diagnostics :=
    match diagnosticsBySourceUnit !! sourceUnitName with
    | Some d => ret d
    | None => throw (Exn "map::at")
    end in
  let params := Json.set "diagnostics" diagnostics params in
  modify (onClient (notify "textDocument/publishDiagnostics" params)).

(** [LanguageServer::compileAndUpdateDiagnostics] *)
Definition compileAndUpdateDiagnostics : M LanguageServer unit :=
  compile;;
  let* r := gets m_fileRepository in
  let diagnosticsBySourceUnit : gmap string Json :=
    fold_left (fun d sourceUnitName => <[sourceUnitName := JArray []]> d)
      (keys (sourceUnits r)) ∅ in
  let* c := gets m_compilerStack in
  let* diagnosticsBySourceUnit := foldM diagnose (errors c) diagnosticsBySourceUnit in
  foldM (fun _ => publish diagnosticsBySourceUnit) (keys (sourceUnits r)) tt.

(** What [handleInitialize] does once [rootPath] is settled. *)
Definition initializeAt (_id : MessageID) (_args : Json) (rootPath : string)
    : M LanguageServer unit :=
  modify (onFileRepository (setBasePath rootPath));;
  let* options := lift (Json.get "initializationOptions" _args) in
  (if Json.isObject options then changeConfiguration options else ret tt);;
  let serverInfo := Json.set "name" (JString "solc") JNull in
  let serverInfo := Json.set "version" (JString VersionNumber) serverInfo in
  let replyArgs := Json.set "serverInfo" serverInfo JNull in
  let textDocumentSync := Json.set "openClose" (JBool true) JNull in
  let textDocumentSync := Json.set "change" (JInt 2) textDocumentSync in
  let replyArgs :=
    Json.set "capabilities" (Json.set "textDocumentSync" textDocumentSync JNull) replyArgs in
  modify (onClient (reply _id replyArgs)).

(** [LanguageServer::handleInitialize].  In the [else if] the condition
    declares a [Json::Value] that is also called [rootPath]; the assignment
    in its body goes to that inner variable, and the [std::string rootPath]
    of the function keeps its initial value. *)
Definition handleInitialize (_id : MessageID) (_args : Json) : M LanguageServer unit :=
  let rootPath : string := "/" in
  let* uri := lift (Json.get "rootUri" _args) in
  if negb (Json.isNull uri) then
    let* rootPath := lift (Json.asString uri) in
    if negb (Str.starts_with rootPath "file://") then
      modify (onClient (error _id InvalidParams "rootUri only supports file URI scheme."))
    else
      let rootPath := Str.drop 7 rootPath in
      initializeAt _id _args rootPath
  else
    let* rootPathValue := lift (Json.get "rootPath" _args) in
    (if negb (Json.isNull rootPathValue) then
       let* text := lift (Json.asString rootPathValue) in
       let rootPathValue := JString text in
       ret tt
     else ret tt);;
    initializeAt _id _args rootPath.

(** [LanguageServer::handleWorkspaceDidChangeConfiguration] *)
Definition handleWorkspaceDidChangeConfiguration (_id : MessageID) (_args : Json)
    : M LanguageServer unit :=
  let* settings := lift (Json.get "settings" _args) in
  if Json.isObject settings then changeConfiguration settings else ret tt.

(** [LanguageServer::handleTextDocumentDidOpen].  The [if] that reports the
    missing parameter has no [return]; the function goes on. *)
Definition handleTextDocumentDidOpen (_id : MessageID) (_args : Json)
    : M LanguageServer unit :=
  let* textDocument := lift (Json.get "textDocument" _args) in
  (if Json.isNull textDocument then
     modify (onClient (error _id RequestFailed "Text document parameter missing."))
   else ret tt);;
  let* textValue := lift (Json.get "text" textDocument) in
  let* text := lift (Json.asString textValue) in
  let* uriValue := lift (Json.get "uri" textDocument) in
  let* uri := lift (Json.asString uriValue) in
  modify (onFileRepository (setSourceByClientPath uri text));;
  compileAndUpdateDiagnostics.

(** [buffer.replace(pos, len, text)]: raises when [pos] is past the end. *)
Definition replace (buffer : string) (pos len : nat) (text : string) : Outcome string :=
  if (String.length buffer <? pos)%nat then Thrown (Exn "basic_string::replace")
  else Ok (Str.take pos buffer +:+ text +:+ Str.drop (pos + len) buffer).

(** The body of the loop of [handleTextDocumentDidChange] over the content
    changes. *)
Definition contentChange (_id : MessageID) (uri : string) (jsonContentChange : Json)
    : M LanguageServer Flow :=
  if negb (Json.isObject jsonContentChange) then
    modify (onClient (error _id RequestFailed "Invalid content reference."));;
    ret Return
  else
    let* r := gets m_fileRepository in
    let sourceUnitName := clientPathToSourceUnitName (basePath r) uri in
    match sourceUnits r !! sourceUnitName with
    | None =>
        modify (onClient (error _id RequestFailed ("Unknown file: " +:+ uri)));;
        ret Return
    | Some stored =>
        let* text := lift (Json.asString (Json.member "text" jsonContentChange)) in
        let range := Json.member "range" jsonContentChange in
        if Json.isObject range then
          match parseRange r sourceUnitName range with
          | Some change =>
              if hasText change then
                let buffer := stored in
                let* buffer :=
                  lift (replace buffer (Z.to_nat (loc_start change))
                          (Z.to_nat (loc_end change - loc_start change)) text) in
                let text := buffer in
                modify (onFileRepository (setSourceByClientPath uri text));;
                ret Next
              else
                modify (onClient (error _id RequestFailed
                          ("Invalid source range: " +:+ jsonCompactPrint range)));;
                ret Return
          | None =>
              modify (onClient (error _id RequestFailed
                        ("Invalid source range: " +:+ jsonCompactPrint range)));;
              ret Return
          end
        else
          modify (onFileRepository (setSourceByClientPath uri text));;
          ret Next
    end.

(** [LanguageServer::handleTextDocumentDidChange] *)
Definition handleTextDocumentDidChange (_id : MessageID) (_args : Json)
    : M LanguageServer unit :=
  let* textDocument := lift (Json.get "textDocument" _args) in
  let* uriValue := lift (Json.get "uri" textDocument) in
  let* uri := lift (Json.asString uriValue) in
  let* contentChanges := lift (Json.get "contentChanges" _args) in
  let* flow := forEach (contentChange _id uri) (Json.elements contentChanges) in
  match flow with
  | Return => ret tt
  | Next => compileAndUpdateDiagnostics
  end.

Definition Handler : Type := MessageID -> Json -> M LanguageServer unit.

(** [m_handlers], as the constructor fills it. *)
Definition m_handlers : list (string * Handler) :=
  [ ("$/cancelRequest", fun _ _ => ret tt);
    ("cancelRequest", fun _ _ => ret tt);
    ("exit", fun _ _ => modify (setExitRequested true));
    ("initialize", handleInitialize);
    ("initialized", fun _ _ => ret tt);
    ("shutdown", fun _ _ => modify (setShutdownRequested true));
    ("textDocument/didChange", handleTextDocumentDidChange);
    ("textDocument/didClose", fun _ _ => ret tt);
    ("textDocument/didOpen", handleTextDocumentDidOpen);
    ("workspace/didChangeConfiguration", handleWorkspaceDidChangeConfiguration) ].

(** [valueOrDefault(m_handlers, methodName)]; [None] is the empty function. *)
Fixpoint valueOrDefault (handlers : list (string * Handler)) (methodName : string)
    : option Handler :=
  match handlers with
  | [] => None
  | (name, handler) :: rest =>
      if String.eqb methodName name then Some handler else valueOrDefault rest methodName
  end.

(** The [try] block of [LanguageServer::run]. *)
Definition dispatch (jsonMessage : Json) : M LanguageServer unit :=
  let* methodValue := lift (Json.get "method" jsonMessage) in
  let* methodName := lift (Json.asString methodValue) in
  let* id := lift (Json.get "id" jsonMessage) in
  match valueOrDefault m_handlers methodName with
  | Some handler =>
      let* params := lift (Json.get "params" jsonMessage) in
      handler id params
  | None =>
      modify (onClient (error id MethodNotFound ("Unknown method " +:+ methodName)))
  end.

(** [try { c } catch (exception const& e) { handler(e) }] *)
Definition tryCatch {S A} (c : M S A) (handler : Exception -> M S A) : M S A :=
  fun s => match c s with
           | (Thrown e, s') => handler e s'
           | done => done
           end.

(** The body of the [while] of [LanguageServer::run]. *)
Definition iteration : M LanguageServer unit :=
  let* jsonMessage := onTransport receive in
  match jsonMessage with
  | None =>
      modify (onClient (error JNull ParseError "Error parsing JSONRPC request."))
  | Some jsonMessage =>
      tryCatch (dispatch jsonMessage)
        (fun e => modify (onClient (error JNull InternalError
                                      ("Unhandled exception: " +:+ what e))))
  end.

(** [LanguageServer::run], with a bound on the number of passes of its
    loop; [None] when the bound is used up before the loop ends. *)
Fixpoint run (bound : nat) (s : LanguageServer) : option (Outcome bool * LanguageServer) :=
  if negb (m_exitRequested s) && negb (closed (m_client s)) then
    match bound with
    | O => None
    | S bound' =>
        match iteration s with
        | (Ok _, s') => run bound' s'
        | (Thrown e, s') => Some (Thrown e, s')
        end
    end
  else Some (Ok (m_shutdownRequested s), s).

End LanguageServer.

(** ** A sample instance of the collaborators

    Concrete collaborators on which the embedding can be run: a serializer
    for the JSON values above, a parser that knows the texts of a fixed list
    of messages, the identity path mapping, and an engine that warns about
    every document that does not begin with a licence comment. *)

Module Sample.

Definition quote : ascii := "034"%char.
Definition backslash : ascii := "092"%char.

Fixpoint quoted (s : string) : string :=
  match s with
  | EmptyString => String quote EmptyString
  | String a s' =>
      if Ascii.eqb a quote || Ascii.eqb a backslash
      then String backslash (String a (quoted s'))
      else String a (quoted s')
  end.

Fixpoint print (j : Json) : string :=
  match j with
  | JNull => "null"
  | JBool b => if b then "true" else "false"
  | JInt n => pretty n
  | JString s => String quote (quoted s)
  | JArray items =>
      "[" +:+ (fix printItems (l : list Json) : string :=
                 match l with
                 | [] => EmptyString
                 | [x] => print x
                 | x :: l' => print x +:+ "," +:+ printItems l'
                 end) items +:+ "]"
  | JObject members =>
      "{" +:+ (fix printMembers (l : list (string * Json)) : string :=
                 match l with
                 | [] => EmptyString
                 | [(k, v)] => String quote (quoted k) +:+ ":" +:+ print v
                 | (k, v) :: l' =>
                     String quote (quoted k) +:+ ":" +:+ print v +:+ "," +:+ printMembers l'
                 end) members +:+ "}"
  end.

Definition request (id : Json) (method : string) (params : Json) : Json :=
  JObject [("id", id); ("jsonrpc", JString "2.0"); ("method", JString method);
           ("params", params)].

Definition notification (method : string) (params : Json) : Json :=
  JObject [("jsonrpc", JString "2.0"); ("method", JString method); ("params", params)].

(** The messages the sample parser knows. *)
Definition known : list Json :=
  [ request (JInt 1) "shutdown" JNull;
    notification "exit" JNull;
    request (JInt 7) "textDocument/didOpen" (JArray [JInt 1]);
    request (JInt 2) "initialize" (JObject [("rootPath", JString "/home/user/project")]) ].

Definition parse (text : string) : Json * string :=
  match List.find (fun j => String.eqb (print j) text) known with
  | Some j => (j, EmptyString)
  | None => (JNull, "* Line 1, Column 1 Syntax error: value, object or array expected.")
  end.

Definition licensed (text : string) : bool := String.prefix "// SPDX" text.

Definition warnings (srcs : gmap string string) : list Error :=
  omap (fun name =>
          match srcs !! name with
          | Some text =>
              if licensed text then None
              else Some {| errorSeverity := SeverityWarning;
                           errorId := 1878;
                           typeName := "Warning";
                           comment := Some "SPDX license identifier not provided in source file.";
                           sourceLocation :=
                             Some {| loc_start := -1; loc_end := -1; sourceName := Some name |};
                           secondarySourceLocation := None |}
          | None => None
          end) (keys srcs).

#[export] Instance collaborators : External := {|
  jsonCompactPrint := print;
  jsonParseStrict := parse;
  clientPathToSourceUnitName := fun _ uri => uri;
  derivedClientPath := fun _ name => name;
  analyse := fun srcs => {| sources := srcs; errors := warnings srcs |};
  sourceNotFound := Exn "Given source file not found.";
  assertionFailed := Exn "Assertion failed";
  VersionNumber := "0.8.11"
|}.

(** The frame a client sends for a message. *)
Definition frame (j : Json) : string :=
  "Content-Length: " +:+ pretty (N.of_nat (String.length (print j))) +:+ Str.crlf +:+ Str.crlf
    +:+ print j.

Definition stream (bytes : string) : IStream :=
  {| unread := bytes; eofbit := false; failbit := false |}.

Definition emptyOutput : OStream := {| pending := EmptyString; flushed := EmptyString |}.

(** A freshly constructed server reading the given bytes. *)
Definition server (bytes : string) : LanguageServer :=
  {| m_client := {| m_input := stream bytes; m_output := emptyOutput |};
     m_fileRepository := {| basePath := "."; sourceUnitNamesToClientPaths := ∅;
                            sourceUnits := ∅ |};
     m_compilerStack := {| sources := ∅; errors := [] |};
     m_settingsObject := JNull;
     m_shutdownRequested := false;
     m_exitRequested := false |}.

End Sample.

(** ** Vocabulary of the statements *)

(** What [send] puts on the wire for a serialized body. *)
Definition framed (body : string) : string :=
  "Content-Length: " +:+ pretty (N.of_nat (String.length body)) +:+ Str.crlf +:+ Str.crlf
    +:+ body.

(** The three shapes of outbound message. *)
Inductive Outbound : Type :=
| Notification (method : string) (params : Json)
| Response (id : MessageID) (result : Json)
| ErrorResponse (id : MessageID) (code : ErrorCode) (message : string).

(** The JSON value [send] serializes for each shape. *)
Definition envelope (m : Outbound) : Json :=
  match m with
  | Notification method params =>
      JObject [("jsonrpc", JString "2.0"); ("method", JString method); ("params", params)]
  | Response id result =>
      if Json.isNull id
      then JObject [("jsonrpc", JString "2.0"); ("result", result)]
      else JObject [("id", id); ("jsonrpc", JString "2.0"); ("result", result)]
  | ErrorResponse id code message =>
      let e := JObject [("code", JInt (errorCodeValue code)); ("message", JString message)] in
      if Json.isNull id
      then JObject [("error", e); ("jsonrpc", JString "2.0")]
      else JObject [("error", e); ("id", id); ("jsonrpc", JString "2.0")]
  end.

(** The stream after [bytes] have been written and flushed. *)
Definition delivered (bytes : string) (o : OStream) : OStream :=
  {| pending := EmptyString; flushed := flushed o +:+ pending o +:+ bytes |}.

(** The message names the method [name]. *)
Definition hasMethod (message : Json) (name : string) : Prop :=
  Json.get "method" message = Ok (JString name).

(** The offset at which the last line of [p] starts. *)
Definition lineStartOf (p : string) : nat :=
  match Str.last_index_of Str.nl p with
  | None => O
  | Some k => S k
  end.

(** [seekLine] relative to the text that is still ahead. *)
Fixpoint seekAhead (s : string) (n : nat) : option nat :=
  match n with
  | O => Some O
  | S n' =>
      match Str.index_of Str.nl s with
      | None => None
      | Some k => (fun r => (S k + r)%nat) <$> seekAhead (Str.drop (S k) s) n'
      end
  end.

(** The zero-width location at offset [o] of the document [name]. *)
Definition point (o : Z) (name : string) : SourceLocation :=
  {| loc_start := o; loc_end := o; sourceName := Some name |}.




(** The protocol range from (l1, c1) to (l2, c2). *)
Definition rangeOf (l1 c1 l2 c2 : Z) : Json :=
  JObject [("end", JObject [("character", JInt c2); ("line", JInt l2)]);
           ("start", JObject [("character", JInt c1); ("line", JInt l1)])].

(** The parameters of a didChange with one range-based entry. *)
Definition rangeChange (uri : string) (range : Json) (text : string) : Json :=
  JObject [("contentChanges", JArray [JObject [("range", range); ("text", JString text)]]);
           ("textDocument", JObject [("uri", JString uri)])].

Section Vocabulary.

Context `{External}.

(** The member function of the transport that sends a message of the
    given shape. *)
Definition emit (m : Outbound) : JSONTransport -> JSONTransport :=
  match m with
  | Notification method params => notify method params
  | Response id result => reply id result
  | ErrorResponse id code message => error id code message
  end.

(** The three ways in which [receive] gives up on a message: with the text
    of the error it reports and the input stream it leaves behind. *)
Inductive ReceiveFailure (t : JSONTransport) : string -> IStream -> Prop :=
| MalformedHeaders i :
    parseHeaders (m_input t) = (None, i) ->
    ReceiveFailure t "Could not parse RPC headers." i
| MissingContentLength headers i :
    parseHeaders (m_input t) = (Some headers, i) ->
    headers !! "content-length" = None ->
    ReceiveFailure t "No content-length header found." i
| InvalidPayload headers i contentLength n data i' message errs :
    parseHeaders (m_input t) = (Some headers, i) ->
    headers !! "content-length" = Some contentLength ->
    stoul contentLength = Ok n ->
    readBytes i (N.to_nat n) = (data, i') ->
    jsonParseStrict data = (message, errs) ->
    errs <> EmptyString ->
    ReceiveFailure t ("Could not parse RPC JSON payload. " +:+ errs) i'.

(** The ways in which an entry of [contentChanges] is rejected, with the
    text of the error. *)
Inductive ChangeFailure (r : FileRepository) (uri : string) (change : Json)
    : string -> Prop :=
| InvalidContentReference :
    Json.isObject change = false ->
    ChangeFailure r uri change "Invalid content reference."
| UnknownFile :
    Json.isObject change = true ->
    sourceUnits r !! clientPathToSourceUnitName (basePath r) uri = None ->
    ChangeFailure r uri change ("Unknown file: " +:+ uri)
| InvalidSourceRange stored text :
    Json.isObject change = true ->
    sourceUnits r !! clientPathToSourceUnitName (basePath r) uri = Some stored ->
    Json.asString (Json.member "text" change) = Ok text ->
    Json.isObject (Json.member "range" change) = true ->
    match parseRange r (clientPathToSourceUnitName (basePath r) uri)
            (Json.member "range" change) with
    | Some location => hasText location = false
    | None => True
    end ->
    ChangeFailure r uri change
      ("Invalid source range: " +:+ jsonCompactPrint (Json.member "range" change)).




End Vocabulary.

(** A server that holds the document [A.sol] with the given text. *)
Definition holding (text : string) : LanguageServer :=
  onFileRepository (setSourceByClientPath (H := Sample.collaborators) "A.sol" text)
    (Sample.server EmptyString).

(** A batch of two content changes for [A.sol]: a whole-document replacement
    followed by an entry that is not an object. *)
Definition brokenBatch : Json :=
  JObject [("contentChanges", JArray [JObject [("text", JString "xyz")]; JInt 5]);
           ("textDocument", JObject [("uri", JString "A.sol")])].



(** ** Vocabulary of the further properties *)

(** The computation [c] leaves every state related by [R] to the state it
    started from, also when it raises. *)
Definition keeps {S A : Type} (R : relation S) (c : M S A) : Prop :=
  forall s, R s (c s).2.

(** What the handling of a message may do to the state: it does not read
    from the transport, and it does not take back a request to shut down or
    to exit. *)
Definition handled (s s' : LanguageServer) : Prop :=
  m_input (m_client s') = m_input (m_client s)
  /\ (m_shutdownRequested s = true -> m_shutdownRequested s' = true)
  /\ (m_exitRequested s = true -> m_exitRequested s' = true).


(** The methods the constructor gives a handler that does nothing. *)
Definition inertMethods : list string :=
  ["$/cancelRequest"; "cancelRequest"; "initialized"; "textDocument/didClose"].

(** The methods the constructor gives a handler. *)
Definition knownMethods : list string :=
  ["$/cancelRequest"; "cancelRequest"; "exit"; "initialize"; "initialized"; "shutdown";
   "textDocument/didChange"; "textDocument/didClose"; "textDocument/didOpen";
   "workspace/didChangeConfiguration"].

(** What a successful initialize replies with. *)
Definition initializeResult `{External} : Json :=
  JObject [("capabilities",
            JObject [("textDocumentSync",
                      JObject [("change", JInt 2); ("openClose", JBool true)])]);
           ("serverInfo",
            JObject [("name", JString "solc"); ("version", JString VersionNumber)])].

(** A stream at the end of which nothing has tried to read yet. *)
Definition exhausted (i : IStream) : Prop :=
  unread i = EmptyString /\ eofbit i = false /\ failbit i = false.

(** The stream after a read has run into the end of the input. *)
Definition atEnd : IStream :=
  {| unread := EmptyString; eofbit := true; failbit := true |}.

(** Every byte of the string is a decimal digit. *)
Fixpoint allDigits (s : string) : bool :=
  match s with
  | EmptyString => true
  | String a s' => bool_decide (is_Some (digit a)) && allDigits s'
  end.

(** An input stream in its initial state over the given bytes. *)
Definition fresh (bytes : string) : IStream :=
  {| unread := bytes; eofbit := false; failbit := false |}.

(** A line and column with the negative components replaced by zero. *)
Definition clamped (lc : LineColumn) : LineColumn :=
  {| line := Z.max (line lc) 0; column := Z.max (column lc) 0 |}.

(** The members of the protocol form of a diagnostic, given its range and
    the member for the secondary locations, if there is one. *)
Definition diagnosticMembers (e : Error) (range : Json) (related : list (string * Json))
    : list (string * Json) :=
  [("code", JInt (Z.of_N (errorId e)));
   ("message",
    JString (match comment e with
             | Some text => (typeName e +:+ ":") +:+ " " +:+ text
             | None => typeName e +:+ ":"
             end));
   ("range", range)]
  ++ related
  ++ [("severity", JInt (toDiagnosticSeverity (errorSeverity e)));
      ("source", JString "solc")].

(** ** Byte strings *)

Lemma append_cons (a : ascii) (s t : string) : String a s +:+ t = String a (s +:+ t).
Proof. reflexivity. Qed.

Lemma append_assoc (s t u : string) : (s +:+ t) +:+ u = s +:+ (t +:+ u).
Proof. induction s as [|a s IH]; [reflexivity | now rewrite !append_cons, IH]. Qed.

(** ** The transport *)

Section TransportFacts.

Context `{External}.

Lemma send_delivers (json : Json) (id : MessageID) (t : JSONTransport) :
  send json id t =
  withOutput
    (delivered
       (framed (jsonCompactPrint
                  (let j := Json.set "jsonrpc" (JString "2.0") json in
                   if negb (Json.isNull id) then Json.set "id" id j else j)))
       (m_output t)) t.
Proof.
  unfold send, delivered, framed, withOutput, flush, write; simpl.
  f_equal. f_equal. now rewrite !append_assoc.
Qed.

Lemma emit_envelope (m : Outbound) (t : JSONTransport) :
  emit m t = withOutput (delivered (framed (jsonCompactPrint (envelope m))) (m_output t)) t.
Proof.
  destruct m as [method params | id result | id code message]; simpl;
    unfold notify, reply, error; rewrite send_delivers; try reflexivity;
    destruct id; reflexivity.
Qed.

Lemma delivered_delivered (a b : string) (o : OStream) :
  delivered b (delivered a o) = delivered (a +:+ b) o.
Proof. unfold delivered; simpl. now rewrite !append_assoc. Qed.

End TransportFacts.

(** C8: every outbound message, whether sent by [notify], [reply] or
    [error], is the compact serialization of a JSON object whose member
    [jsonrpc] is the string 2.0, written as a [Content-Length] header holding
    the byte length of that serialization, an empty line, and the
    serialization itself; nothing is left unflushed afterwards.  The object
    of a reply or an error has the member [id], holding the given id, exactly
    when that id is not null, and the object of a notification has no member
    [id]. *)
Theorem outbound_message_framing `{External} (m : Outbound) (t : JSONTransport) :
  let body := jsonCompactPrint (envelope m) in
  m_input (emit m t) = m_input t
  /\ pending (m_output (emit m t)) = EmptyString
  /\ flushed (m_output (emit m t)) =
       flushed (m_output t) +:+ pending (m_output t)
         +:+ "Content-Length: " +:+ pretty (N.of_nat (String.length body))
         +:+ Str.crlf +:+ Str.crlf +:+ body
  /\ (exists members, envelope m = JObject members
        /\ Json.assoc "jsonrpc" members = Some (JString "2.0")
        /\ Json.assoc "id" members =
             match m with
             | Notification _ _ => None
             | Response id _ | ErrorResponse id _ _ => if Json.isNull id then None else Some id
             end).
Proof.
  intros body. rewrite emit_envelope. simpl. repeat split.
  destruct m as [method params | id result | id code message]; simpl.
  - eexists; repeat split.
  - destruct (Json.isNull id); eexists; repeat split.
  - destruct (Json.isNull id); eexists; repeat split.
Qed.

(** ** Reading the headers *)

Lemma index_of_lt (c : ascii) (s : string) (k : nat) :
  Str.index_of c s = Some k -> (k < String.length s)%nat.
Proof.
  revert k; induction s as [|a s IH]; intros k; simpl; [discriminate|].
  destruct (Ascii.eqb a c).
  - intros [= <-]. lia.
  - destruct (Str.index_of c s) as [j|]; simpl; [|discriminate].
    intros [= <-]. specialize (IH j eq_refl). lia.
Qed.

Lemma length_drop (n : nat) (s : string) :
  String.length (Str.drop n s) = (String.length s - n)%nat.
Proof.
  revert s; induction n as [|n IH]; intros [|a s]; simpl; auto.
Qed.

Lemma getline_shrinks (i i' : IStream) (l : string) :
  getline i = (l, i') ->
  l = EmptyString \/ (String.length (unread i') < String.length (unread i))%nat.
Proof.
  unfold getline. destruct (good i).
  - destruct (Str.index_of Str.nl (unread i)) as [k|] eqn:E.
    + intros [= <- <-]; cbn [unread]. right. apply index_of_lt in E.
      destruct (unread i) as [|a u]; simpl in *; [lia|]. rewrite length_drop. lia.
    + intros [= <- <-]; simpl. destruct (unread i); [now left | right; simpl; lia].
  - intros [= <- <-]. now left.
Qed.

Section TransportLoops.

Context `{External}.

(** The bound [parseHeaders] gives its loop is never used up. *)
Lemma parseHeadersLoop_bound (bound : nat) (headers : gmap string string) (i : IStream) :
  (String.length (unread i) < bound)%nat ->
  is_Some (parseHeadersLoop bound headers i).
Proof.
  revert headers i; induction bound as [|bound IH]; intros headers i Hlt; [lia|].
  simpl. destruct (getline i) as [l i'] eqn:G.
  destruct (Str.is_empty (Str.trim_copy l)) eqn:E; [eauto|].
  destruct (Str.index_of ":" l); [|eauto].
  apply IH. destruct (getline_shrinks _ _ _ G) as [-> | Hs]; [discriminate | lia].
Qed.

Lemma parseHeaders_loop (i : IStream) :
  parseHeadersLoop (S (String.length (unread i))) ∅ i = Some (parseHeaders i).
Proof.
  unfold parseHeaders.
  destruct (parseHeadersLoop_bound (S (String.length (unread i))) ∅ i) as [r ->]; [lia|].
  reflexivity.
Qed.

Lemma is_empty_false (s : string) : s <> EmptyString -> Str.is_empty s = false.
Proof. destruct s; [congruence | reflexivity]. Qed.

Lemma receive_failure (t : JSONTransport) (msg : string) (i : IStream) :
  ReceiveFailure t msg i ->
  receive t = (Ok None, error JNull ParseError msg (withInput i t)).
Proof.
  intros F. unfold receive, bind, modify, ret, lift.
  destruct F as [i P | headers i P L | headers i v n data i' message errs P L S R J E];
    rewrite P; simpl.
  - reflexivity.
  - rewrite L. reflexivity.
  - rewrite L, S; simpl. rewrite R, J. rewrite (is_empty_false _ E). reflexivity.
Qed.

(** [receive] returns no value only in those three ways. *)
Lemma receive_none (t t' : JSONTransport) :
  receive t = (Ok None, t') ->
  exists msg i, ReceiveFailure t msg i /\ t' = error JNull ParseError msg (withInput i t).
Proof.
  unfold receive, bind, modify, ret, lift.
  destruct (parseHeaders (m_input t)) as [[headers|] i] eqn:P; simpl.
  - destruct (headers !! "content-length") as [v|] eqn:L.
    + destruct (stoul v) as [n|e] eqn:S; [|discriminate]. simpl.
      destruct (readBytes i (N.to_nat n)) as [data i'] eqn:R.
      destruct (jsonParseStrict data) as [message errs] eqn:J.
      destruct (Str.is_empty errs) eqn:E; simpl; [discriminate|].
      intros [= <-]. eexists _, _; split; [|reflexivity].
      eapply InvalidPayload; eauto. intros ->. discriminate.
    + intros [= <-]. eexists _, _; split; [|reflexivity].
      eapply MissingContentLength; eauto.
  - intros [= <-]. eexists _, _; split; [|reflexivity]. now apply MalformedHeaders.
Qed.

(** A message can only be received from a stream that is not at its end. *)
Lemma receive_some_not_closed (t t' : JSONTransport) (j : Json) :
  receive t = (Ok (Some j), t') -> closed t = false.
Proof.
  unfold receive, bind, modify, ret, lift, closed.
  destruct (eofbit (m_input t)) eqn:Eof; [|reflexivity].
  assert (P : parseHeaders (m_input t) =
              (Some ∅, {| unread := unread (m_input t); eofbit := eofbit (m_input t);
                          failbit := true |})).
  { unfold parseHeaders. simpl. unfold getline, good. rewrite Eof. reflexivity. }
  rewrite P. simpl. rewrite lookup_empty. discriminate.
Qed.

End TransportLoops.

(** ** The loop of the dispatcher *)

Section LoopFacts.

Context `{External}.

Lemma run_unfold (bound : nat) (s : LanguageServer) :
  run bound s =
  if negb (m_exitRequested s) && negb (closed (m_client s)) then
    match bound with
    | O => None
    | S bound' =>
        match iteration s with
        | (Ok _, s') => run bound' s'
        | (Thrown e, s') => Some (Thrown e, s')
        end
    end
  else Some (Ok (m_shutdownRequested s), s).
Proof. destruct bound; reflexivity. Qed.

Lemma run_returns (bound : nat) (s s' : LanguageServer) (b : bool) :
  run bound s = Some (Ok b, s') ->
  b = m_shutdownRequested s'
  /\ (m_exitRequested s' = true \/ closed (m_client s') = true).
Proof.
  assert (stop : forall s, negb (m_exitRequested s) && negb (closed (m_client s)) = false ->
                 m_exitRequested s = true \/ closed (m_client s) = true).
  { intros s0. destruct (m_exitRequested s0), (closed (m_client s0)); auto. }
  revert s; induction bound as [|bound IH]; intros s; rewrite run_unfold;
    destruct (negb (m_exitRequested s) && negb (closed (m_client s))) eqn:C;
    try discriminate.
  - intros [= <- <-]. auto.
  - destruct (iteration s) as [[[]|e] s1]; [apply IH | discriminate].
  - intros [= <- <-]. auto.
Qed.

(** A result reached within a bound is reached within every larger one. *)
Lemma run_bound_mono (bound extra : nat) (s : LanguageServer)
    (r : Outcome bool * LanguageServer) :
  run bound s = Some r -> run (bound + extra) s = Some r.
Proof.
  revert s; induction bound as [|bound IH]; intros s; rewrite !run_unfold;
    destruct (negb (m_exitRequested s) && negb (closed (m_client s))); auto;
    try discriminate.
  simpl. destruct (iteration s) as [[[]|e] s1]; auto.
Qed.

Lemma onTransport_receive (s : LanguageServer) (r : Outcome (option Json)) (t : JSONTransport) :
  receive (m_client s) = (r, t) ->
  onTransport receive s = (r, onClient (fun _ => t) s).
Proof. unfold onTransport. now intros ->. Qed.

Lemma hasMethod_object (message : Json) (name : string) :
  hasMethod message name ->
  exists members, message = JObject members
                  /\ Json.assoc "method" members = Some (JString name).
Proof.
  unfold hasMethod. destruct message; simpl; try discriminate.
  destruct (Json.assoc "method" members) eqn:E; simpl; [|discriminate].
  intros [= ->]. eauto.
Qed.

Lemma dispatch_shutdown (message : Json) (s : LanguageServer) :
  hasMethod message "shutdown" ->
  dispatch message s = (Ok tt, setShutdownRequested true s).
Proof.
  intros (members & -> & E)%hasMethod_object.
  unfold dispatch, bind, lift; simpl. rewrite E. reflexivity.
Qed.

Lemma dispatch_exit (message : Json) (s : LanguageServer) :
  hasMethod message "exit" ->
  dispatch message s = (Ok tt, setExitRequested true s).
Proof.
  intros (members & -> & E)%hasMethod_object.
  unfold dispatch, bind, lift; simpl. rewrite E. reflexivity.
Qed.

Lemma iteration_received (s : LanguageServer) (message : Json) (t : JSONTransport) :
  receive (m_client s) = (Ok (Some message), t) ->
  iteration s =
  tryCatch (dispatch message)
    (fun e => modify (onClient (error JNull InternalError
                                  ("Unhandled exception: " +:+ what e))))
    (onClient (fun _ => t) s).
Proof.
  intros R. unfold iteration, bind. now rewrite (onTransport_receive _ _ _ R).
Qed.

Lemma iteration_shutdown (s : LanguageServer) (message : Json) (t : JSONTransport) :
  receive (m_client s) = (Ok (Some message), t) ->
  hasMethod message "shutdown" ->
  iteration s = (Ok tt, setShutdownRequested true (onClient (fun _ => t) s)).
Proof.
  intros R Hm. rewrite (iteration_received _ _ _ R).
  unfold tryCatch. now rewrite dispatch_shutdown.
Qed.

Lemma iteration_exit (s : LanguageServer) (message : Json) (t : JSONTransport) :
  receive (m_client s) = (Ok (Some message), t) ->
  hasMethod message "exit" ->
  iteration s = (Ok tt, setExitRequested true (onClient (fun _ => t) s)).
Proof.
  intros R Hm. rewrite (iteration_received _ _ _ R).
  unfold tryCatch. now rewrite dispatch_exit.
Qed.

End LoopFacts.

(** C5: the loop of [run] goes on exactly while the exit flag is unset and
    the transport is not closed, and what [run] returns is the shutdown
    flag.  From a state in which exit has not been requested, receiving a
    shutdown message and then an exit message ends the loop after two passes
    with the value true; receiving an exit message when shutdown has not been
    requested ends it after one pass with the value false. *)
Theorem run_lifecycle `{External} :
  (forall bound s,
     run bound s =
     if negb (m_exitRequested s) && negb (closed (m_client s)) then
       match bound with
       | O => None
       | S bound' =>
           match iteration s with
           | (Ok _, s') => run bound' s'
           | (Thrown e, s') => Some (Thrown e, s')
           end
       end
     else Some (Ok (m_shutdownRequested s), s))
  /\ (forall bound s b s',
        run bound s = Some (Ok b, s') ->
        b = m_shutdownRequested s'
        /\ (m_exitRequested s' = true \/ closed (m_client s') = true))
  /\ (forall bound s shutdown exit t1 t2,
        m_exitRequested s = false ->
        receive (m_client s) = (Ok (Some shutdown), t1) ->
        hasMethod shutdown "shutdown" ->
        receive t1 = (Ok (Some exit), t2) ->
        hasMethod exit "exit" ->
        run (2 + bound) s =
        Some (Ok true,
              setExitRequested true
                (onClient (fun _ => t2)
                   (setShutdownRequested true (onClient (fun _ => t1) s)))))
  /\ (forall bound s exit t1,
        m_exitRequested s = false ->
        m_shutdownRequested s = false ->
        receive (m_client s) = (Ok (Some exit), t1) ->
        hasMethod exit "exit" ->
        run (1 + bound) s = Some (Ok false, setExitRequested true (onClient (fun _ => t1) s))).
Proof.
  split; [exact run_unfold|]. split; [intros; eapply run_returns; eauto|]. split.
  - intros bound s shutdown exit t1 t2 Hexit R1 M1 R2 M2.
    apply run_bound_mono.
    rewrite run_unfold, Hexit, (receive_some_not_closed _ _ _ R1). cbn [negb andb].
    rewrite (iteration_shutdown _ _ _ R1 M1).
    rewrite run_unfold. cbn [m_exitRequested m_client setShutdownRequested onClient].
    rewrite Hexit, (receive_some_not_closed _ _ _ R2). cbn [negb andb].
    rewrite (iteration_exit (setShutdownRequested true (onClient (fun _ => t1) s)) exit t2);
      [reflexivity | exact R2 | exact M2].
  - intros bound s exit t1 Hexit Hshutdown R M.
    apply run_bound_mono.
    rewrite run_unfold, Hexit, (receive_some_not_closed _ _ _ R). cbn [negb andb].
    rewrite (iteration_exit _ _ _ R M). rewrite run_unfold.
    cbn [m_exitRequested m_shutdownRequested m_client setExitRequested onClient negb andb].
    now rewrite Hshutdown.
Qed.

(** C10: when [receive] gives up on a message, for malformed headers, for a
    missing content-length header or for a body that is not valid JSON, one
    pass of the loop emits exactly two messages: the [ParseError] of
    [receive] and then the [ParseError] of the loop, both without an id. *)
Theorem receive_failure_reported_twice `{External}
    (s : LanguageServer) (msg : string) (i : IStream) :
  ReceiveFailure (m_client s) msg i ->
  let first := ErrorResponse JNull ParseError msg in
  let second := ErrorResponse JNull ParseError "Error parsing JSONRPC request." in
  iteration s = (Ok tt, onClient (fun t => emit second (emit first (withInput i t))) s)
  /\ m_output (emit second (emit first (withInput i (m_client s)))) =
       delivered (framed (jsonCompactPrint (envelope first))
                    +:+ framed (jsonCompactPrint (envelope second)))
         (m_output (m_client s))
  /\ envelope first =
       JObject [("error", JObject [("code", JInt (-32700)); ("message", JString msg)]);
                ("jsonrpc", JString "2.0")]
  /\ envelope second =
       JObject [("error", JObject [("code", JInt (-32700));
                                   ("message", JString "Error parsing JSONRPC request.")]);
                ("jsonrpc", JString "2.0")].
Proof.
  intros F first second. split; [|split; [|split; reflexivity]].
  - unfold iteration, bind.
    rewrite (onTransport_receive _ _ _ (receive_failure _ _ _ F)).
    unfold modify. destruct s; reflexivity.
  - rewrite !emit_envelope. simpl. now rewrite delivered_delivered.
Qed.

(** C9: when the handling of a received message raises an exception, the
    loop reports it with one [InternalError] message that has no id, whatever
    id the message carried, and goes on. *)
Theorem handler_exception_reported_without_id `{External}
    (s s1 : LanguageServer) (t : JSONTransport) (jsonMessage : Json) (e : Exception) :
  receive (m_client s) = (Ok (Some jsonMessage), t) ->
  dispatch jsonMessage (onClient (fun _ => t) s) = (Thrown e, s1) ->
  let report := ErrorResponse JNull InternalError ("Unhandled exception: " +:+ what e) in
  iteration s = (Ok tt, onClient (emit report) s1)
  /\ m_output (m_client (onClient (emit report) s1)) =
       delivered (framed (jsonCompactPrint (envelope report))) (m_output (m_client s1))
  /\ envelope report =
       JObject [("error", JObject [("code", JInt (-32603));
                                   ("message", JString ("Unhandled exception: " +:+ what e))]);
                ("jsonrpc", JString "2.0")].
Proof.
  intros R D report. split; [|split; [|reflexivity]].
  - rewrite (iteration_received _ _ _ R). unfold tryCatch. rewrite D. reflexivity.
  - cbn [onClient m_client]. now rewrite emit_envelope.
Qed.


(** ** Position translation *)

Section Positions.

Local Abbreviation nl := Str.nl.

Lemma drop_drop (n m : nat) (s : string) :
  Str.drop n (Str.drop m s) = Str.drop (m + n) s.
Proof.
  revert s; induction m as [|m IH]; intros s; [reflexivity|].
  destruct s as [|a s]; simpl; [destruct n; reflexivity | apply IH].
Qed.

Lemma seekLine_ahead (text : string) (n offset : nat) :
  seekLine text n offset =
  (fun r => (offset + r)%nat) <$> seekAhead (Str.drop offset text) n.
Proof.
  revert offset; induction n as [|n IH]; intros offset; cbn [seekLine seekAhead].
  - cbn. f_equal; lia.
  - unfold Str.find. destruct (Str.index_of nl (Str.drop offset text)) as [k|];
      cbn [fmap option_fmap option_map]; [|reflexivity].
    rewrite IH, drop_drop. replace (S (offset + k)) with (offset + S k)%nat by lia.
    destruct (seekAhead (Str.drop (offset + S k) text) n);
      cbn [fmap option_fmap option_map]; [f_equal; lia | reflexivity].
Qed.

Lemma take_drop (n : nat) (s : string) : Str.take n s +:+ Str.drop n s = s.
Proof.
  revert s; induction n as [|n IH]; intros [|a s]; simpl; try reflexivity.
  rewrite append_cons. now rewrite IH.
Qed.

Lemma length_take (n : nat) (s : string) :
  (n <= String.length s)%nat -> String.length (Str.take n s) = n.
Proof.
  revert s; induction n as [|n IH]; intros [|a s]; simpl; intros Hn; try lia.
  rewrite IH; lia.
Qed.

Lemma last_index_of_lt (c : ascii) (s : string) (k : nat) :
  Str.last_index_of c s = Some k -> (k < String.length s)%nat.
Proof.
  revert k; induction s as [|a s IH]; intros k; simpl; [discriminate|].
  destruct (Str.last_index_of c s) as [j|].
  - intros [= <-]. specialize (IH j eq_refl). lia.
  - destruct (Ascii.eqb a c); [intros [= <-]; lia | discriminate].
Qed.

Lemma count_zero_last_index (c : ascii) (s : string) :
  Str.count c s = O -> Str.last_index_of c s = None.
Proof.
  induction s as [|a s IH]; simpl; [reflexivity|].
  destruct (Ascii.eqb a c); [discriminate|]. simpl. intros E. now rewrite IH.
Qed.

Lemma count_pos_last_index (c : ascii) (s : string) (m : nat) :
  Str.count c s = S m -> is_Some (Str.last_index_of c s).
Proof.
  revert m; induction s as [|a s IH]; intros m; simpl; [discriminate|].
  destruct (Str.last_index_of c s) as [j|]; [eauto|].
  destruct (Ascii.eqb a c); [eauto|]. simpl. intros E. destruct (IH _ E) as [? [=]].
Qed.

Lemma count_le_length (c : ascii) (s : string) : (Str.count c s <= String.length s)%nat.
Proof. induction s as [|a s IH]; simpl; [lia | destruct (Ascii.eqb a c); lia]. Qed.

Lemma lineStartOf_le (p : string) : (lineStartOf p <= String.length p)%nat.
Proof.
  unfold lineStartOf. destruct (Str.last_index_of nl p) eqn:E; [|lia].
  apply last_index_of_lt in E. lia.
Qed.

Lemma lineStartOf_cons (a : ascii) (p : string) :
  lineStartOf (String a p) =
  if Ascii.eqb a nl || negb (Nat.eqb (Str.count nl p) 0) then S (lineStartOf p) else O.
Proof.
  unfold lineStartOf. simpl.
  destruct (Str.count nl p) as [|m] eqn:C.
  - rewrite (count_zero_last_index _ _ C). destruct (Ascii.eqb a nl); reflexivity.
  - destruct (count_pos_last_index _ _ _ C) as [k ->]. now rewrite orb_true_r.
Qed.

(** Skipping as many line feeds as the prefix [p] holds leads to the start
    of the last line of [p]. *)
Lemma seekAhead_prefix (p q : string) :
  seekAhead (p +:+ q) (Str.count nl p) = Some (lineStartOf p).
Proof.
  induction p as [|a p IH]; [reflexivity|].
  rewrite lineStartOf_cons, append_cons. cbn [Str.count].
  destruct (Ascii.eqb a nl) eqn:A; cbn [orb].
  - cbn [Nat.add seekAhead Str.index_of]. rewrite A. cbn [Str.drop]. now rewrite IH.
  - cbn [Nat.add]. destruct (Str.count nl p) as [|m] eqn:C; [reflexivity|].
    cbn [Nat.eqb negb]. cbn [seekAhead Str.index_of] in *. rewrite A.
    destruct (Str.index_of nl (p +:+ q)) as [k|]; cbn [fmap option_fmap option_map] in *;
      [|discriminate IH].
    change (Str.drop (S (S k)) (String a (p +:+ q))) with (Str.drop (S k) (p +:+ q)).
    destruct (seekAhead (Str.drop (S k) (p +:+ q)) m); cbn [fmap option_fmap option_map] in *;
      [|discriminate IH].
    injection IH as <-. reflexivity.
Qed.

(** There is no line feed between the start of the last line of [p] and
    the end of [p]. *)
Lemma line_end_after_prefix (p q : string) (j : nat) :
  Str.index_of nl (Str.drop (lineStartOf p) (p +:+ q)) = Some j ->
  (String.length p <= lineStartOf p + j)%nat.
Proof.
  revert j; induction p as [|a p IH]; intros j; [simpl; lia|].
  rewrite lineStartOf_cons, append_cons.
  destruct (Ascii.eqb a nl || negb (Nat.eqb (Str.count nl p) 0)) eqn:E.
  - cbn [Str.drop]. intros Hj. specialize (IH _ Hj). simpl. lia.
  - apply orb_false_elim in E as [A C]. apply negb_false_iff, Nat.eqb_eq in C.
    cbn [Str.drop Str.index_of]. rewrite A.
    destruct (Str.index_of nl (p +:+ q)) as [k|] eqn:K; [|discriminate].
    intros [= <-]. specialize (IH k).
    unfold lineStartOf in IH. rewrite (count_zero_last_index _ _ C) in IH.
    specialize (IH K). simpl in *. lia.
Qed.

(** Modelled position translation: from an offset inside the text to a
    line and column, and back. *)
Lemma translate_roundtrip (text : string) (o : Z) :
  0 <= o <= Z.of_nat (String.length text) ->
  translateLineColumnToPosition text (translatePositionToLineColumn text o) = Some o.
Proof.
  intros Ho. unfold translatePositionToLineColumn.
  destruct (Z.ltb_spec o 0) as [|_]; [lia|].
  rewrite Nat.min_r by lia.
  set (n := Z.to_nat o). set (p := Str.take n text).
  assert (Hlen : String.length p = n) by (apply length_take; lia).
  assert (Hstart : match n with
                   | O => O
                   | S before => match Str.rfind nl text before with
                                 | None => O
                                 | Some k => S k
                                 end
                   end = lineStartOf p).
  { unfold lineStartOf, p, Str.rfind. destruct n; reflexivity. }
  rewrite Hstart. pose proof (lineStartOf_le p) as Hle.
  unfold translateLineColumnToPosition. cbn [line column].
  destruct (Z.ltb_spec (Z.of_nat (Str.count nl p)) 0) as [|_]; [lia|].
  destruct (Z.ltb_spec (Z.of_nat (n - lineStartOf p)) 0) as [|_]; [lia|].
  cbn [orb]. rewrite !Nat2Z.id, seekLine_ahead. cbn [Str.drop].
  rewrite <- (take_drop n text) at 1. fold p. rewrite seekAhead_prefix.
  cbn [fmap option_fmap option_map Nat.add].
  replace (lineStartOf p + (n - lineStartOf p))%nat with n by lia.
  assert (Hend : (n <= default (String.length text) (Str.find nl text (lineStartOf p)))%nat).
  { unfold Str.find. rewrite <- (take_drop n text) at 2. fold p.
    destruct (Str.index_of nl (Str.drop (lineStartOf p) (p +:+ Str.drop n text))) eqn:J;
      cbn [fmap option_fmap option_map from_option id].
    - apply line_end_after_prefix in J. lia.
    - lia. }
  destruct (Nat.ltb_spec (default (String.length text) (Str.find nl text (lineStartOf p))) n);
    [lia|].
  f_equal. lia.
Qed.

End Positions.

(** ** Positions through the protocol *)

Lemma translatePositionToLineColumn_bounds (text : string) (o : Z) :
  0 <= o <= Z.of_nat (String.length text) ->
  0 <= line (translatePositionToLineColumn text o) <= o
  /\ 0 <= column (translatePositionToLineColumn text o) <= o.
Proof.
  intros Ho. unfold translatePositionToLineColumn.
  destruct (Z.ltb_spec o 0) as [|_]; [lia|].
  rewrite Nat.min_r by lia. cbn [line column].
  pose proof (count_le_length Str.nl (Str.take (Z.to_nat o) text)) as Hc.
  rewrite length_take in Hc by lia. lia.
Qed.

Lemma parseLineColumn_toJson (lc : LineColumn) :
  0 <= line lc <= Json.maxInt ->
  0 <= column lc <= Json.maxInt ->
  parseLineColumn (toJson lc) = Some lc.
Proof.
  intros Hl Hc. destruct lc as [l c]; cbn [line column] in *.
  change (toJson {| line := l; column := c |})
    with (JObject [("character", JInt (Z.max c 0)); ("line", JInt (Z.max l 0))]).
  rewrite !Z.max_l by lia. unfold parseLineColumn; simpl.
  assert (Hmin : Json.minInt <= 0) by (unfold Json.minInt; lia).
  destruct (Z.leb_spec Json.minInt l); [|lia].
  destruct (Z.leb_spec l Json.maxInt); [|lia].
  destruct (Z.leb_spec Json.minInt c); [|lia].
  destruct (Z.leb_spec c Json.maxInt); [|lia].
  reflexivity.
Qed.

(** C6: for a known document and an offset [o] inside its text (an [int],
    like every offset of a location), the line and column that offset is
    translated to are translated back to [o]; through the protocol, both
    ends of the range [toRange] emits for the location at [o] are parsed back
    by [parsePosition] to that location. *)
Theorem offset_roundtrip `{External}
    (r : FileRepository) (c : CompilerStack) (name text : string) (o : Z) :
  sourceUnits r !! name = Some text ->
  sources c !! name = Some text ->
  0 <= o <= Z.of_nat (String.length text) ->
  o <= Json.maxInt ->
  translateLineColumnToPosition text (translatePositionToLineColumn text o) = Some o
  /\ exists range,
       toRange c (point o name) = Ok range
       /\ parsePosition r name (Json.member "start" range) = Some (point o name)
       /\ parsePosition r name (Json.member "end" range) = Some (point o name).
Proof.
  intros Hr Hc Ho Hint. pose proof (translate_roundtrip text o Ho) as RT.
  split; [exact RT|].
  destruct (translatePositionToLineColumn_bounds text o Ho) as [Hl Hcol].
  assert (P : parseLineColumn (toJson (translatePositionToLineColumn text o))
              = Some (translatePositionToLineColumn text o))
    by (apply parseLineColumn_toJson; lia).
  exists (toJsonRange (translatePositionToLineColumn text o)
            (translatePositionToLineColumn text o)).
  split; [|split].
  - unfold toRange, hasText, point, charStream; cbn [sourceName loc_start loc_end].
    rewrite Hc. destruct (Z.leb_spec 0 o); [|lia]. destruct (Z.leb_spec o o); [|lia].
    reflexivity.
  - unfold parsePosition. rewrite Hr.
    change (Json.member "start" (toJsonRange ?a ?b)) with (toJson a).
    now rewrite P, RT.
  - unfold parsePosition. rewrite Hr.
    change (Json.member "end" (toJsonRange ?a ?b)) with (toJson b).
    now rewrite P, RT.
Qed.

(** ** What the handlers leave untouched *)

Section Frames.

Context `{External}.

Lemma onClient_onClient (f g : JSONTransport -> JSONTransport) (s : LanguageServer) :
  onClient g (onClient f s) = onClient (fun t => g (f t)) s.
Proof. reflexivity. Qed.

(** A pass over the diagnostics of the engine reads the state only. *)
Lemma diagnose_state (d : gmap string Json) (e : Error) (s : LanguageServer) :
  (diagnose d e s).2 = s.
Proof.
  unfold diagnose. destruct (sourceLocation e) as [l|]; [|reflexivity].
  destruct (sourceName l) as [name|]; [|reflexivity].
  unfold bind, gets, lift, ret.
  destruct (diagnostic (m_fileRepository s) (m_compilerStack s) e l); reflexivity.
Qed.

Lemma foldM_diagnose_state (l : list Error) (d : gmap string Json) (s : LanguageServer) :
  (foldM diagnose l d s).2 = s.
Proof.
  revert d; induction l as [|e l IH]; intros d; [reflexivity|].
  cbn [foldM]. unfold bind. pose proof (diagnose_state d e s) as D.
  destruct (diagnose d e s) as [[d'|x] s']; cbn [snd] in D; subst s'; [apply IH | reflexivity].
Qed.

(** A pass of the publishing loop touches the transport only. *)
Lemma publish_state (d : gmap string Json) (name : string) (s : LanguageServer) :
  exists f, (publish d name s).2 = onClient f s.
Proof.
  unfold publish, bind, gets, modify, ret, throw.
  destruct (d !! name); [eexists; reflexivity|].
  exists (fun t => t). now destruct s.
Qed.

Lemma foldM_publish_state (d : gmap string Json) (l : list string) (s : LanguageServer) :
  exists f, (foldM (fun _ => publish d) l tt s).2 = onClient f s.
Proof.
  revert s; induction l as [|name l IH]; intros s.
  - exists (fun t => t). now destruct s.
  - cbn [foldM]. unfold bind. destruct (publish_state d name s) as [f Hf].
    destruct (publish d name s) as [[[]|x] s']; cbn [snd] in Hf; subst s'.
    + destruct (IH (onClient f s)) as [g Hg]. rewrite Hg. eexists. apply onClient_onClient.
    + eexists; reflexivity.
Qed.

(** Compiling and publishing replaces the state of the compiler engine and
    writes to the transport; the documents, the settings and the two flags
    stay as they are, also when an exception ends it early. *)
Lemma compileAndUpdateDiagnostics_state (s : LanguageServer) :
  exists f,
    (compileAndUpdateDiagnostics s).2 =
    onClient f (setCompilerStack (analyse (sourceUnits (m_fileRepository s))) s).
Proof.
  unfold compileAndUpdateDiagnostics, compile.
  unfold bind at 1. unfold modify at 1.
  set (s0 := setCompilerStack _ s).
  unfold bind at 1. unfold gets at 1.
  unfold bind at 1. unfold gets at 1.
  unfold bind at 1.
  pose proof (foldM_diagnose_state (errors (m_compilerStack s0))
                (fold_left (fun d name => <[name := JArray []]> d)
                   (keys (sourceUnits (m_fileRepository s0))) ∅) s0) as D.
  destruct (foldM diagnose _ _ s0) as [[d|x] s1]; cbn [snd] in D; subst s1.
  - apply foldM_publish_state.
  - exists (fun t => t). now destruct s.
Qed.

Lemma compileAndUpdateDiagnostics_fileRepository (s : LanguageServer) :
  m_fileRepository (compileAndUpdateDiagnostics s).2 = m_fileRepository s.
Proof. destruct (compileAndUpdateDiagnostics_state s) as [f ->]. reflexivity. Qed.

Lemma compileAndUpdateDiagnostics_compilerStack (s : LanguageServer) :
  m_compilerStack (compileAndUpdateDiagnostics s).2 =
  analyse (sourceUnits (m_fileRepository s)).
Proof. destruct (compileAndUpdateDiagnostics_state s) as [f ->]. reflexivity. Qed.

End Frames.

(** ** The handlers *)

(** C2: for an initialize request without [rootUri] whose [rootPath] is a
    string, the handler replies, and the base path of the document names it
    establishes is the initial value [/] of its local variable, whatever
    [rootPath] holds: the value read from [rootPath] is assigned to the
    variable declared in the condition and never reaches [setBasePath]. *)
Theorem initialize_ignores_rootPath `{External}
    (s : LanguageServer) (id : MessageID) (args : Json) (path : string) :
  Json.get "rootUri" args = Ok JNull ->
  Json.get "rootPath" args = Ok (JString path) ->
  exists s', handleInitialize id args s = (Ok tt, s')
             /\ basePath (m_fileRepository s') = "/".
Proof.
  intros Huri Hpath. unfold handleInitialize, bind, lift. rewrite Huri. cbn [Json.isNull negb].
  rewrite Hpath. cbn [Json.isNull negb Json.asString]. unfold ret at 1.
  destruct args as [| | | | |members]; try discriminate Hpath.
  unfold initializeAt, bind, lift, modify, changeConfiguration, ret. cbn [Json.get].
  destruct (Json.isObject (default JNull (Json.assoc "initializationOptions" members)));
    eexists; split; reflexivity.
Qed.

(** C3: for a didOpen notification without [textDocument], the handler
    emits the [RequestFailed] error and then goes on as for any other
    notification: it records the empty text under the empty client path and
    compiles and publishes. *)
Theorem didOpen_without_textDocument_continues `{External}
    (s : LanguageServer) (id : MessageID) (args : Json) :
  Json.get "textDocument" args = Ok JNull ->
  let s1 := onClient (error id RequestFailed "Text document parameter missing.") s in
  let s2 := onFileRepository (setSourceByClientPath EmptyString EmptyString) s1 in
  let name := clientPathToSourceUnitName (basePath (m_fileRepository s)) EmptyString in
  handleTextDocumentDidOpen id args s = compileAndUpdateDiagnostics s2
  /\ sourceUnits (m_fileRepository (handleTextDocumentDidOpen id args s).2) !! name
       = Some EmptyString
  /\ m_compilerStack (handleTextDocumentDidOpen id args s).2
       = analyse (<[name := EmptyString]> (sourceUnits (m_fileRepository s))).
Proof.
  intros Htd s1 s2 name.
  assert (E : handleTextDocumentDidOpen id args s = compileAndUpdateDiagnostics s2).
  { unfold handleTextDocumentDidOpen, bind, lift. rewrite Htd. reflexivity. }
  rewrite E, compileAndUpdateDiagnostics_fileRepository,
    compileAndUpdateDiagnostics_compilerStack.
  split; [reflexivity|]. split; [|reflexivity].
  cbn. apply lookup_insert_eq.
Qed.

Section Changes.

Context `{External}.

Lemma contentChange_failure (id : MessageID) (uri : string) (change : Json)
    (s : LanguageServer) (msg : string) :
  ChangeFailure (m_fileRepository s) uri change msg ->
  contentChange id uri change s = (Ok Return, onClient (error id RequestFailed msg) s).
Proof.
  intros F. unfold contentChange.
  destruct F as [O | O U | stored text O U T R P]; rewrite O; cbn [negb].
  - reflexivity.
  - unfold bind at 1. unfold gets at 1. rewrite U. reflexivity.
  - unfold bind at 1. unfold gets at 1. rewrite U.
    unfold bind at 1. unfold lift at 1. rewrite T, R.
    destruct (parseRange _ _ _) as [location|]; [rewrite P|]; reflexivity.
Qed.

(** An entry only ever ends the handler by being rejected. *)
Lemma contentChange_return (id : MessageID) (uri : string) (change : Json)
    (s s' : LanguageServer) :
  contentChange id uri change s = (Ok Return, s') ->
  exists msg, ChangeFailure (m_fileRepository s) uri change msg
              /\ s' = onClient (error id RequestFailed msg) s.
Proof.
  unfold contentChange. destruct (Json.isObject change) eqn:O; cbn [negb].
  - unfold bind at 1. unfold gets at 1.
    destruct (sourceUnits (m_fileRepository s) !! _) as [stored|] eqn:U.
    + unfold bind at 1. unfold lift at 1.
      destruct (Json.asString (Json.member "text" change)) as [text|x] eqn:T;
        [|discriminate].
      destruct (Json.isObject (Json.member "range" change)) eqn:R; [|discriminate].
      destruct (parseRange _ _ _) as [location|] eqn:P.
      * destruct (hasText location) eqn:HT.
        -- unfold bind, lift. destruct (replace _ _ _ _); discriminate.
        -- intros [= <-]. eexists; split; [|reflexivity].
           eapply InvalidSourceRange; eauto. now rewrite P.
      * intros [= <-]. eexists; split; [|reflexivity].
        eapply InvalidSourceRange; eauto. now rewrite P.
    + intros [= <-]. eexists; split; [|reflexivity]. now apply UnknownFile.
  - intros [= <-]. eexists; split; [|reflexivity]. now apply InvalidContentReference.
Qed.

(** An entry that is accepted replaces the text of the document and does
    nothing else. *)
Lemma contentChange_next (id : MessageID) (uri : string) (change : Json)
    (s s' : LanguageServer) :
  contentChange id uri change s = (Ok Next, s') ->
  exists text, s' = onFileRepository (setSourceByClientPath uri text) s.
Proof.
  unfold contentChange. destruct (Json.isObject change) eqn:O; cbn [negb]; [|discriminate].
  unfold bind at 1. unfold gets at 1.
  destruct (sourceUnits (m_fileRepository s) !! _) as [stored|] eqn:U; [|discriminate].
  unfold bind at 1. unfold lift at 1.
  destruct (Json.asString (Json.member "text" change)) as [text|x] eqn:T; [|discriminate].
  destruct (Json.isObject (Json.member "range" change)) eqn:R.
  - destruct (parseRange _ _ _) as [location|] eqn:P; [|discriminate].
    destruct (hasText location) eqn:HT; [|discriminate].
    unfold bind, lift. destruct (replace _ _ _ _) as [buffer|x]; [|discriminate].
    intros [= <-]. eauto.
  - intros [= <-]. eauto.
Qed.

Lemma forEach_contentChange_next (id : MessageID) (uri : string) (changes : list Json)
    (s s' : LanguageServer) :
  forEach (contentChange id uri) changes s = (Ok Next, s') ->
  exists f, s' = onFileRepository f s.
Proof.
  revert s; induction changes as [|change changes IH]; intros s.
  - intros [= <-]. exists (fun r => r). now destruct s.
  - cbn [forEach]. unfold bind.
    destruct (contentChange id uri change s) as [[[]|x] s1] eqn:C; try discriminate.
    intros E. apply contentChange_next in C as [text ->].
    apply IH in E as [f ->]. eexists (fun r => f (setSourceByClientPath uri text r)).
    reflexivity.
Qed.

Lemma forEach_app_return {S A} (body : A -> M S Flow) (pre rest : list A) (bad : A)
    (s s1 s2 : S) :
  forEach body pre s = (Ok Next, s1) ->
  body bad s1 = (Ok Return, s2) ->
  forEach body (pre ++ bad :: rest) s = (Ok Return, s2).
Proof.
  revert s; induction pre as [|a pre IH]; intros s; cbn [forEach app].
  - intros [= <-] B. unfold bind. now rewrite B.
  - unfold bind. destruct (body a s) as [[[]|x] s']; try discriminate.
    intros E B. now apply IH.
Qed.

(** When no entry is rejected, the handler compiles and publishes after
    the last one. *)
Lemma didChange_applied (s s1 : LanguageServer) (id : MessageID)
    (args textDocument : Json) (uri : string) (changes : list Json) :
  Json.get "textDocument" args = Ok textDocument ->
  Json.get "uri" textDocument = Ok (JString uri) ->
  Json.get "contentChanges" args = Ok (JArray changes) ->
  forEach (contentChange id uri) changes s = (Ok Next, s1) ->
  handleTextDocumentDidChange id args s = compileAndUpdateDiagnostics s1.
Proof.
  intros Htd Huri Hcc Hall. unfold handleTextDocumentDidChange, bind, lift.
  rewrite Htd, Huri. cbn [Json.asString]. rewrite Hcc. cbn [Json.elements].
  now rewrite Hall.
Qed.

End Changes.

Section ChangesBatch.

Context `{External}.

(** A batch stops at its first rejected entry, after the entries before it
    have been applied. *)
Lemma didChange_stops_at_rejected (s s1 : LanguageServer) (id : MessageID)
    (args textDocument : Json) (uri msg : string) (pre rest : list Json) (bad : Json) :
  Json.get "textDocument" args = Ok textDocument ->
  Json.get "uri" textDocument = Ok (JString uri) ->
  Json.get "contentChanges" args = Ok (JArray (pre ++ bad :: rest)) ->
  forEach (contentChange id uri) pre s = (Ok Next, s1) ->
  ChangeFailure (m_fileRepository s1) uri bad msg ->
  handleTextDocumentDidChange id args s = (Ok tt, onClient (error id RequestFailed msg) s1).
Proof.
  intros Htd Huri Hcc Hpre Hbad.
  unfold handleTextDocumentDidChange, bind, lift.
  rewrite Htd, Huri. cbn [Json.asString]. rewrite Hcc. cbn [Json.elements].
  now rewrite (forEach_app_return _ _ _ _ _ _ _ Hpre (contentChange_failure _ _ _ _ _ Hbad)).
Qed.

End ChangesBatch.

(** C1, as the code has it: when an entry of a didChange batch is rejected
    (invalid content reference, unknown document, or a range that does not
    resolve), the handler emits one [RequestFailed] error and returns; no
    later entry is applied and nothing is compiled or published.  The entries
    before the rejected one have been applied one by one, and the stored text
    is what they made of it: the state differs from the one before the batch
    in the documents only, and not at all when the first entry is the
    rejected one. *)
Theorem didChange_rejected_entry `{External}
    (s s1 : LanguageServer) (id : MessageID) (args textDocument : Json) (uri msg : string)
    (pre rest : list Json) (bad : Json) :
  Json.get "textDocument" args = Ok textDocument ->
  Json.get "uri" textDocument = Ok (JString uri) ->
  Json.get "contentChanges" args = Ok (JArray (pre ++ bad :: rest)) ->
  forEach (contentChange id uri) pre s = (Ok Next, s1) ->
  ChangeFailure (m_fileRepository s1) uri bad msg ->
  handleTextDocumentDidChange id args s = (Ok tt, onClient (error id RequestFailed msg) s1)
  /\ (exists f, s1 = onFileRepository f s)
  /\ (pre = [] -> s1 = s).
Proof.
  intros Htd Huri Hcc Hpre Hbad. split; [|split].
  - now apply (didChange_stops_at_rejected s s1 id args textDocument uri msg pre rest bad).
  - eapply forEach_contentChange_next, Hpre.
  - intros ->. now injection Hpre as <-.
Qed.

(** ** Diagnostics *)

Section Diagnostics.

Context `{External}.











End Diagnostics.


(** ** The worked example of a range change *)

(** C7, as the code has it: with the text [contract C {}] stored for the
    document, the change that replaces the range from (0,0) to (0,8) by
    [library] leaves [library C {}] stored.  The range from (0,9) to (0,17)
    ends beyond the thirteen bytes of the text: that change is rejected with
    [RequestFailed] and the state is otherwise as before. *)
Theorem didChange_contract_to_library `{External}
    (s : LanguageServer) (id : MessageID) (uri : string) :
  let name := clientPathToSourceUnitName (basePath (m_fileRepository s)) uri in
  sourceUnits (m_fileRepository s) !! name = Some "contract C {}" ->
  sourceUnits
    (m_fileRepository
       (handleTextDocumentDidChange id (rangeChange uri (rangeOf 0 0 0 8) "library") s).2)
    !! name = Some "library C {}"
  /\ handleTextDocumentDidChange id (rangeChange uri (rangeOf 0 9 0 17) "library") s =
     (Ok tt,
      onClient (error id RequestFailed
                  ("Invalid source range: " +:+ jsonCompactPrint (rangeOf 0 9 0 17))) s).
Proof.
  intros name Hstored. split.
  - assert (P : parseRange (m_fileRepository s) name (rangeOf 0 0 0 8) =
                Some {| loc_start := 0; loc_end := 8; sourceName := Some name |}).
    { unfold parseRange, parsePosition. cbn [rangeOf Json.isObject negb]. rewrite Hstored.
      reflexivity. }
    assert (C : contentChange id uri (JObject [("range", rangeOf 0 0 0 8);
                                               ("text", JString "library")]) s =
                (Ok Next, onFileRepository (setSourceByClientPath uri "library C {}") s)).
    { unfold contentChange. cbn [Json.isObject negb].
      unfold bind at 1. unfold gets at 1. fold name. rewrite Hstored.
      change (Json.member "text" _) with (JString "library").
      change (Json.member "range" _) with (rangeOf 0 0 0 8).
      unfold bind at 1. unfold lift at 1. cbn [Json.asString rangeOf Json.isObject].
      fold (rangeOf 0 0 0 8). rewrite P. reflexivity. }
    assert (E : handleTextDocumentDidChange id (rangeChange uri (rangeOf 0 0 0 8) "library") s =
                compileAndUpdateDiagnostics
                  (onFileRepository (setSourceByClientPath uri "library C {}") s)).
    { apply (didChange_applied s _ id _ (JObject [("uri", JString uri)]) uri
               [JObject [("range", rangeOf 0 0 0 8); ("text", JString "library")]]);
        try reflexivity.
      cbn [forEach]. unfold bind. rewrite C. reflexivity. }
    rewrite E, compileAndUpdateDiagnostics_fileRepository. cbn. apply lookup_insert_eq.
  - apply (didChange_stops_at_rejected s s id _ (JObject [("uri", JString uri)]) uri _ [] []
             (JObject [("range", rangeOf 0 9 0 17); ("text", JString "library")]));
      try reflexivity.
    apply (InvalidSourceRange (m_fileRepository s) uri
             (JObject [("range", rangeOf 0 9 0 17); ("text", JString "library")])
             "contract C {}" "library"); try reflexivity.
    + exact Hstored.
    + fold name. change (Json.member "range" _) with (rangeOf 0 9 0 17).
      unfold parseRange, parsePosition. cbn [rangeOf Json.isObject negb]. rewrite Hstored.
      exact I.
Qed.

(** ** What a computation keeps *)

Section Keeps.

Context {S : Type} (R : relation S) `{!PreOrder R}.

Lemma keeps_ret {A} (a : A) : keeps R (ret a).
Proof. intros s. reflexivity. Qed.

Lemma keeps_throw {A} (e : Exception) : keeps R (@throw S A e).
Proof. intros s. reflexivity. Qed.

Lemma keeps_lift {A} (o : Outcome A) : keeps R (lift o).
Proof. intros s. reflexivity. Qed.

Lemma keeps_gets {A} (f : S -> A) : keeps R (gets f).
Proof. intros s. reflexivity. Qed.

Lemma keeps_modify (f : S -> S) : (forall s, R s (f s)) -> keeps R (modify f).
Proof. intros Hf s. apply Hf. Qed.

Lemma keeps_bind {A B} (c : M S A) (k : A -> M S B) :
  keeps R c -> (forall a, keeps R (k a)) -> keeps R (bind c k).
Proof.
  intros Hc Hk s. unfold bind. specialize (Hc s).
  destruct (c s) as [[a|e] s1]; cbn [snd] in *; [|exact Hc].
  etransitivity; [exact Hc | apply Hk].
Qed.

Lemma keeps_foldM {A B} (body : B -> A -> M S B) (l : list A) (b : B) :
  (forall b a, keeps R (body b a)) -> keeps R (foldM body l b).
Proof.
  intros Hbody. revert b; induction l as [|a l IH]; intros b; cbn [foldM].
  - apply keeps_ret.
  - apply keeps_bind; [apply Hbody | intros b'; apply IH].
Qed.

Lemma keeps_forEach {A} (body : A -> M S Flow) (l : list A) :
  (forall a, keeps R (body a)) -> keeps R (forEach body l).
Proof.
  intros Hbody. induction l as [|a l IH]; cbn [forEach].
  - apply keeps_ret.
  - apply keeps_bind; [apply Hbody | intros []; [exact IH | apply keeps_ret]].
Qed.

Lemma keeps_tryCatch {A} (c : M S A) (handler : Exception -> M S A) :
  keeps R c -> (forall e, keeps R (handler e)) -> keeps R (tryCatch c handler).
Proof.
  intros Hc Hh s. unfold tryCatch. specialize (Hc s).
  destruct (c s) as [[a|e] s1]; cbn [snd] in *; [exact Hc|].
  etransitivity; [exact Hc | apply Hh].
Qed.

End Keeps.

Lemma handled_preorder : PreOrder handled.
Proof.
  split.
  - intros s. unfold handled. auto.
  - intros s1 s2 s3 (I12 & S12 & E12) (I23 & S23 & E23). unfold handled.
    rewrite I23, I12. auto.
Qed.

#[global] Existing Instance handled_preorder.

Create HintDb keeps discriminated.

#[global] Hint Resolve keeps_ret keeps_throw keeps_lift keeps_gets : keeps.

(** Takes a computation apart along its binds and its case distinctions. *)
Ltac keeps_steps :=
  repeat match goal with
    | |- PreOrder _ => exact _
    | |- keeps _ (ret _) => apply keeps_ret
    | |- keeps _ (throw _) => apply keeps_throw
    | |- keeps _ (lift _) => apply keeps_lift
    | |- keeps _ (gets _) => apply keeps_gets
    | |- keeps _ (bind _ _) => apply keeps_bind; [| |intros]
    | |- keeps _ (foldM _ _ _) => apply keeps_foldM; [|intros]
    | |- keeps _ (forEach _ _) => apply keeps_forEach; [|intros]
    | |- keeps _ (modify _) => apply keeps_modify; intros
    | |- keeps _ (if ?b then _ else _) => destruct b
    | |- keeps _ (match ?x with _ => _ end) => destruct x
    end.

Section Handled.

Context `{External}.

Lemma send_input (json : Json) (id : MessageID) (t : JSONTransport) :
  m_input (send json id t) = m_input t.
Proof. reflexivity. Qed.

Lemma handled_onClient (f : JSONTransport -> JSONTransport) (s : LanguageServer) :
  (forall t, m_input (f t) = m_input t) -> handled s (onClient f s).
Proof. intros Hf. unfold handled. cbn. rewrite Hf. auto. Qed.

Lemma handled_error id code msg s : handled s (onClient (error id code msg) s).
Proof. apply handled_onClient. reflexivity. Qed.

Lemma handled_reply id result s : handled s (onClient (reply id result) s).
Proof. apply handled_onClient. reflexivity. Qed.

Lemma handled_notify method params s : handled s (onClient (notify method params) s).
Proof. apply handled_onClient. reflexivity. Qed.

Lemma handled_onFileRepository f s : handled s (onFileRepository f s).
Proof. unfold handled. cbn. auto. Qed.

Lemma handled_setCompilerStack c s : handled s (setCompilerStack c s).
Proof. unfold handled. cbn. auto. Qed.

Lemma handled_setSettingsObject j s : handled s (setSettingsObject j s).
Proof. unfold handled. cbn. auto. Qed.

Lemma handled_setShutdownRequested s : handled s (setShutdownRequested true s).
Proof. unfold handled. cbn. auto. Qed.

Lemma handled_setExitRequested s : handled s (setExitRequested true s).
Proof. unfold handled. cbn. auto. Qed.

#[local] Hint Resolve handled_error handled_reply handled_notify handled_onFileRepository
  handled_setCompilerStack handled_setSettingsObject handled_setShutdownRequested
  handled_setExitRequested : keeps.

Ltac handled_steps := keeps_steps; auto with keeps.

Lemma keeps_compileAndUpdateDiagnostics : keeps handled compileAndUpdateDiagnostics.
Proof.
  unfold compileAndUpdateDiagnostics, compile. handled_steps.
  - unfold diagnose. handled_steps.
  - unfold publish. handled_steps.
Qed.

Lemma keeps_handleInitialize id args : keeps handled (handleInitialize id args).
Proof.
  unfold handleInitialize, initializeAt, changeConfiguration. handled_steps.
Qed.

Lemma keeps_handleWorkspaceDidChangeConfiguration id args :
  keeps handled (handleWorkspaceDidChangeConfiguration id args).
Proof.
  unfold handleWorkspaceDidChangeConfiguration, changeConfiguration. handled_steps.
Qed.

Lemma keeps_handleTextDocumentDidOpen id args :
  keeps handled (handleTextDocumentDidOpen id args).
Proof.
  unfold handleTextDocumentDidOpen. handled_steps.
  apply keeps_compileAndUpdateDiagnostics.
Qed.

Lemma keeps_handleTextDocumentDidChange id args :
  keeps handled (handleTextDocumentDidChange id args).
Proof.
  unfold handleTextDocumentDidChange. handled_steps.
  - unfold contentChange. handled_steps.
  - apply keeps_compileAndUpdateDiagnostics.
Qed.

Lemma keeps_handler (name : string) (handler : Handler) id args :
  valueOrDefault m_handlers name = Some handler -> keeps handled (handler id args).
Proof.
  unfold m_handlers. cbn [valueOrDefault].
  repeat (destruct (String.eqb name _);
          [intros [= <-];
           first [ apply keeps_handleInitialize
                 | apply keeps_handleTextDocumentDidChange
                 | apply keeps_handleTextDocumentDidOpen
                 | apply keeps_handleWorkspaceDidChangeConfiguration
                 | keeps_steps; auto with keeps ] |]).
  discriminate.
Qed.

Lemma keeps_dispatch (jsonMessage : Json) : keeps handled (dispatch jsonMessage).
Proof.
  unfold dispatch.
  apply keeps_bind; [exact _ | keeps_steps | intros methodValue].
  apply keeps_bind; [exact _ | keeps_steps | intros methodName].
  apply keeps_bind; [exact _ | keeps_steps | intros id].
  destruct (valueOrDefault m_handlers methodName) as [handler|] eqn:V.
  - apply keeps_bind; [exact _ | keeps_steps | intros params].
    eapply keeps_handler, V.
  - keeps_steps. apply handled_error.
Qed.

End Handled.

(** ** Handling a received message *)

Section Handling.

Context `{External}.

(** The catch clause of the loop leaves no exception of the dispatch. *)
Lemma handling_ok (jsonMessage : Json) (s : LanguageServer) :
  (tryCatch (dispatch jsonMessage)
     (fun e => modify (onClient (error JNull InternalError
                                   ("Unhandled exception: " +:+ what e)))) s).1 = Ok tt.
Proof.
  unfold tryCatch. destruct (dispatch jsonMessage s) as [[[]|e] s1]; reflexivity.
Qed.

Lemma keeps_handling (jsonMessage : Json) :
  keeps handled
    (tryCatch (dispatch jsonMessage)
       (fun e => modify (onClient (error JNull InternalError
                                     ("Unhandled exception: " +:+ what e))))).
Proof.
  apply keeps_tryCatch; try exact _; [apply keeps_dispatch|].
  intros e. apply keeps_modify; try exact _. intros s0. apply handled_error.
Qed.

End Handling.

(** X1: handling a received message, with the catch clause of the loop
    around it, never raises, never reads from the transport, and never takes
    back a request to shut down or to exit. *)
Theorem handling_keeps_input_and_flags `{External} (jsonMessage : Json) (s : LanguageServer) :
  let handling :=
    tryCatch (dispatch jsonMessage)
      (fun e => modify (onClient (error JNull InternalError
                                    ("Unhandled exception: " +:+ what e)))) in
  (handling s).1 = Ok tt
  /\ m_input (m_client (handling s).2) = m_input (m_client s)
  /\ (m_shutdownRequested s = true -> m_shutdownRequested (handling s).2 = true)
  /\ (m_exitRequested s = true -> m_exitRequested (handling s).2 = true).
Proof.
  intros handling. split.
  - apply handling_ok.
  - exact (keeps_handling jsonMessage s).
Qed.

Section Iteration.

Context `{External}.

Lemma receive_flags (s : LanguageServer) :
  m_shutdownRequested (onTransport receive s).2 = m_shutdownRequested s
  /\ m_exitRequested (onTransport receive s).2 = m_exitRequested s
  /\ m_client (onTransport receive s).2 = (receive (m_client s)).2.
Proof. unfold onTransport. destruct (receive (m_client s)) as [r t]. auto. Qed.


Lemma iteration_flags (s : LanguageServer) :
  (m_shutdownRequested s = true -> m_shutdownRequested (iteration s).2 = true)
  /\ (m_exitRequested s = true -> m_exitRequested (iteration s).2 = true).
Proof.
  unfold iteration, bind. destruct (receive_flags s) as (S1 & E1 & _).
  destruct (onTransport receive s) as [[[message|]|e] s1]; cbn [snd] in *;
    rewrite <- S1, <- E1; auto.
  destruct (keeps_handling message s1) as (_ & S2 & E2). auto.
Qed.

End Iteration.

(** X2: a content-length header whose value [std::stoul] does not convert
    ends [run] with the exception of [std::stoul].  The conversion is made in
    [receive], which [run] calls outside its [try] block: the exception is
    neither caught nor reported, nothing of the body is read, and nothing is
    sent; only the header lines have been taken from the input. *)
Theorem content_length_exception_leaves_run `{External}
    (s : LanguageServer) (headers : gmap string string) (i : IStream)
    (contentLength : string) (e : Exception) :
  parseHeaders (m_input (m_client s)) = (Some headers, i) ->
  headers !! "content-length" = Some contentLength ->
  stoul contentLength = Thrown e ->
  iteration s = (Thrown e, onClient (withInput i) s)
  /\ (m_exitRequested s = false -> closed (m_client s) = false ->
      forall bound, run (S bound) s = Some (Thrown e, onClient (withInput i) s)).
Proof.
  intros P L St.
  assert (R : receive (m_client s) = (Thrown e, withInput i (m_client s))).
  { unfold receive, bind, lift. now rewrite P, L, St. }
  assert (It : iteration s = (Thrown e, onClient (withInput i) s)).
  { unfold iteration, bind, onTransport. now rewrite R. }
  split; [exact It|].
  intros Hexit Hclosed bound. rewrite run_unfold, Hexit, Hclosed. cbn [negb andb].
  now rewrite It.
Qed.

(** X3: once shutdown has been requested, [run] returns true whenever it
    returns, whatever messages are handled before the loop ends. *)
Theorem run_after_shutdown `{External} (bound : nat) (s s' : LanguageServer) (b : bool) :
  m_shutdownRequested s = true ->
  run bound s = Some (Ok b, s') ->
  b = true.
Proof.
  revert s; induction bound as [|bound IH]; intros s Hs; rewrite run_unfold;
    destruct (negb (m_exitRequested s) && negb (closed (m_client s))); try discriminate.
  - intros [= <- <-]. exact Hs.
  - destruct (iteration_flags s) as [Hflag _]. specialize (Hflag Hs).
    destruct (iteration s) as [[[]|e] s1]; cbn [snd] in Hflag; [|discriminate].
    now apply IH.
  - intros [= <- <-]. exact Hs.
Qed.

(** ** The loop ends *)




Section Termination.

Context `{External}.




End Termination.


(** ** The table of handlers *)

Section Methods.

Context `{External}.

Lemma valueOrDefault_unknown (name : string) :
  name ∉ knownMethods -> valueOrDefault m_handlers name = None.
Proof.
  intros Hn. unfold m_handlers. cbn [valueOrDefault].
  repeat match goal with
         | |- context [String.eqb name ?k] =>
             destruct (String.eqb_spec name k) as [E|_];
             [exfalso; apply Hn; rewrite E; apply list_elem_of_In; unfold knownMethods;
              cbn [In]; repeat (first [left; reflexivity | right])|]
         end.
  reflexivity.
Qed.

Lemma valueOrDefault_inert (name : string) :
  name ∈ inertMethods -> valueOrDefault m_handlers name = Some (fun _ _ => ret tt).
Proof.
  intros Hn%list_elem_of_In. cbn in Hn.
  destruct Hn as [<-|[<-|[<-|[<-|[]]]]]; reflexivity.
Qed.

End Methods.

(** X5: a message whose method is none of the ten names of the handler
    table, also one without a method (the name is then empty), is answered
    with one [MethodNotFound] error that carries the id of the message and the
    name in its text; nothing else changes.  The names are matched exactly. *)
Theorem unknown_method_reported `{External}
    (members : list (string * Json)) (name : string) (s : LanguageServer) :
  Json.asString (default JNull (Json.assoc "method" members)) = Ok name ->
  name ∉ knownMethods ->
  dispatch (JObject members) s =
  (Ok tt,
   onClient (error (default JNull (Json.assoc "id" members)) MethodNotFound
               ("Unknown method " +:+ name)) s).
Proof.
  intros Hname Hn. unfold dispatch, bind, lift. cbn [Json.get]. rewrite Hname.
  now rewrite (valueOrDefault_unknown name Hn).
Qed.

(** X6: the methods [initialized], [$/cancelRequest], [cancelRequest] and
    [textDocument/didClose] are accepted and change nothing: nothing is sent,
    and closing a document does not remove it from the store. *)
Theorem inert_method_changes_nothing `{External}
    (members : list (string * Json)) (name : string) (s : LanguageServer) :
  Json.assoc "method" members = Some (JString name) ->
  name ∈ inertMethods ->
  dispatch (JObject members) s = (Ok tt, s).
Proof.
  intros Hname Hn. unfold dispatch, bind, lift. cbn [Json.get]. rewrite Hname.
  cbn [from_option id Json.asString]. now rewrite (valueOrDefault_inert name Hn).
Qed.

(** X7: an initialize request whose [rootUri] is not null.  When the text of
    the URI does not begin with [file://], the request is answered with one
    [InvalidParams] error carrying its id, and nothing else changes: no
    reply, no base path, no configuration.  When it does, the base path
    becomes the URI without its first seven bytes, [initializationOptions]
    becomes the configuration exactly when it is an object, and the request
    is answered with one reply carrying its id, the name and version of the
    server, and the capabilities open/close and incremental change (2). *)
Theorem initialize_with_rootUri `{External}
    (members : list (string * Json)) (rootUri : Json) (uri : string) (id : MessageID)
    (s : LanguageServer) :
  Json.assoc "rootUri" members = Some rootUri ->
  Json.isNull rootUri = false ->
  Json.asString rootUri = Ok uri ->
  handleInitialize id (JObject members) s =
  if Str.starts_with uri "file://" then
    let options := default JNull (Json.assoc "initializationOptions" members) in
    let s1 := onFileRepository (setBasePath (Str.drop 7 uri)) s in
    let s2 := if Json.isObject options then setSettingsObject options s1 else s1 in
    (Ok tt, onClient (reply id initializeResult) s2)
  else
    (Ok tt, onClient (error id InvalidParams "rootUri only supports file URI scheme.") s).
Proof.
  intros Hm Hnull Huri. unfold handleInitialize, bind, lift. cbn [Json.get].
  rewrite Hm. cbn [from_option Datatypes.id]. rewrite Hnull, Huri. cbn [negb].
  destruct (Str.starts_with uri "file://"); cbn [negb]; [|reflexivity].
  unfold initializeAt, bind, lift, modify, changeConfiguration, ret. cbn [Json.get].
  destruct (Json.isObject (default JNull (Json.assoc "initializationOptions" members)));
    reflexivity.
Qed.

(** X8: a didChange notification without content changes (none given, or an
    empty array) goes straight to compiling and publishing: the document is
    not looked up, so no error is reported even when it is unknown, and every
    known document gets its diagnostics again. *)
Theorem didChange_without_changes `{External}
    (s : LanguageServer) (id : MessageID) (args textDocument uriValue contentChanges : Json)
    (uri : string) :
  Json.get "textDocument" args = Ok textDocument ->
  Json.get "uri" textDocument = Ok uriValue ->
  Json.asString uriValue = Ok uri ->
  Json.get "contentChanges" args = Ok contentChanges ->
  Json.elements contentChanges = [] ->
  handleTextDocumentDidChange id args s = compileAndUpdateDiagnostics s.
Proof.
  intros Htd Huv Huri Hcc Hnone. unfold handleTextDocumentDidChange, bind, lift.
  rewrite Htd, Huv, Huri, Hcc, Hnone. reflexivity.
Qed.

(** X9: when the input is used up but nothing has tried to read past its
    end yet, the transport is not closed, and the loop makes one more pass:
    [receive] finds no headers and reports a missing content-length header,
    the loop reports a parse error, and only then is the transport closed and
    does [run] return, with the shutdown flag. *)
Theorem run_at_end_of_input `{External} (s : LanguageServer) (bound : nat) :
  exhausted (m_input (m_client s)) ->
  m_exitRequested s = false ->
  closed (m_client s) = false
  /\ run (S bound) s =
     Some (Ok (m_shutdownRequested s),
           onClient (fun t =>
                       emit (ErrorResponse JNull ParseError "Error parsing JSONRPC request.")
                         (emit (ErrorResponse JNull ParseError "No content-length header found.")
                            (withInput atEnd t))) s).
Proof.
  intros (Hu & He & Hf) Hexit. unfold closed. split; [exact He|].
  assert (F : ReceiveFailure (m_client s) "No content-length header found." atEnd).
  { apply (MissingContentLength _ ∅); [|apply lookup_empty].
    unfold parseHeaders. rewrite Hu. cbn [String.length parseHeadersLoop].
    unfold getline, good. rewrite He, Hf, Hu. reflexivity. }
  assert (It : iteration s =
               (Ok tt,
                onClient (fun t =>
                            emit (ErrorResponse JNull ParseError "Error parsing JSONRPC request.")
                              (emit (ErrorResponse JNull ParseError
                                       "No content-length header found.")
                                 (withInput atEnd t))) s)).
  { unfold iteration, bind.
    rewrite (onTransport_receive _ _ _ (receive_failure _ _ _ F)).
    unfold modify. destruct s; reflexivity. }
  rewrite run_unfold, Hexit. unfold closed. rewrite He. cbn [negb andb].
  rewrite It. rewrite run_unfold.
  match goal with
  | |- context [closed (m_client ?s1)] =>
      change (closed (m_client s1)) with true; rewrite andb_false_r
  end.
  reflexivity.
Qed.

(** ** Reading back what was written *)

Lemma length_append (s t : string) :
  String.length (s +:+ t) = (String.length s + String.length t)%nat.
Proof.
  induction s as [|a s IH]; [reflexivity|]. rewrite append_cons. cbn [String.length].
  now rewrite IH.
Qed.

Lemma take_append (s t : string) : Str.take (String.length s) (s +:+ t) = s.
Proof.
  induction s as [|a s IH]; [destruct t; reflexivity|].
  rewrite append_cons. cbn [String.length Str.take]. now rewrite IH.
Qed.

Lemma drop_append (s t : string) (k : nat) :
  Str.drop (String.length s + k) (s +:+ t) = Str.drop k t.
Proof.
  induction s as [|a s IH]; [reflexivity|].
  rewrite append_cons. cbn [String.length Nat.add Str.drop]. exact IH.
Qed.

Lemma index_of_append (c : ascii) (s t : string) :
  Str.index_of c s = None ->
  Str.index_of c (s +:+ t) = (fun k => (String.length s + k)%nat) <$> Str.index_of c t.
Proof.
  induction s as [|a s IH]; intros Hs.
  - change (EmptyString +:+ t) with t. destruct (Str.index_of c t); reflexivity.
  - rewrite append_cons. cbn [Str.index_of String.length] in *.
    destruct (Ascii.eqb a c); [discriminate|].
    destruct (Str.index_of c s); [discriminate|]. rewrite (IH eq_refl).
    destruct (Str.index_of c t); reflexivity.
Qed.

(** A good stream that holds a line, a line feed and more gives that line. *)
Lemma getline_line (i : IStream) (l rest : string) :
  good i = true ->
  unread i = l +:+ String Str.nl rest ->
  Str.index_of Str.nl l = None ->
  getline i = (l, fresh rest).
Proof.
  intros G U N. unfold getline. rewrite G, U, (index_of_append _ _ _ N).
  cbn [Str.index_of]. rewrite Ascii.eqb_refl. cbn [fmap option_fmap option_map].
  rewrite Nat.add_0_r, take_append.
  replace (S (String.length l)) with (String.length l + 1)%nat by lia.
  now rewrite drop_append.
Qed.

Lemma digit_char (d : N) : (d < 10)%N -> digit (pretty_N_char d) = Some d.
Proof.
  intros Hd.
  assert (C : (d = 0 \/ d = 1 \/ d = 2 \/ d = 3 \/ d = 4 \/ d = 5 \/ d = 6 \/ d = 7
               \/ d = 8 \/ d = 9)%N) by lia.
  repeat (destruct C as [->|C]; [reflexivity|]). now subst.
Qed.

Lemma digit_plain (a : ascii) (d : N) :
  digit a = Some d ->
  Str.is_space a = false /\ Ascii.eqb a Str.nl = false
  /\ Ascii.eqb a "-" = false /\ Ascii.eqb a "+" = false.
Proof.
  destruct a as [[] [] [] [] [] [] [] []]; vm_compute; intros E;
    first [discriminate E | repeat split].
Qed.

Lemma pretty_go_allDigits (x : N) (s : string) :
  allDigits s = true -> allDigits (pretty_N_go x s) = true.
Proof.
  revert s. induction (N.lt_wf_0 x) as [x _ IH]. intros s Hs.
  destruct (N.eq_dec x 0%N) as [->|Hx]; [now rewrite pretty_N_go_0|].
  rewrite pretty_N_go_step by lia. apply IH.
  - apply N.div_lt; lia.
  - cbn [allDigits]. rewrite digit_char by (apply N.mod_lt; lia).
    rewrite bool_decide_eq_true_2 by eauto. exact Hs.
Qed.

Lemma pretty_allDigits (n : N) : allDigits (pretty n) = true /\ pretty n <> EmptyString.
Proof.
  unfold pretty, pretty_N. destruct (decide (n = 0%N)) as [->|Hn]; [split; [reflexivity|discriminate]|].
  split; [now apply pretty_go_allDigits|].
  rewrite pretty_N_go_step by lia. intros E.
  assert (L : forall x s, s <> EmptyString -> pretty_N_go x s <> EmptyString).
  { intros x. induction (N.lt_wf_0 x) as [x _ IH]. intros s Hs.
    destruct (N.eq_dec x 0%N) as [->|Hx]; [now rewrite pretty_N_go_0|].
    rewrite pretty_N_go_step by lia. apply IH; [apply N.div_lt; lia | discriminate]. }
  now apply (L (n `div` 10)%N (String (pretty_N_char (n `mod` 10)) "")).
Qed.

(** The digits of [x] in front of a string read as [x] appended to what was
    read before. *)
Lemma digits_pretty_go (x : N) :
  (0 < x)%N ->
  exists k : N, forall (acc : option N) (s : string),
    digits acc (pretty_N_go x s) = digits (Some (default 0 acc * 10 ^ k + x)%N) s.
Proof.
  induction (N.lt_wf_0 x) as [x _ IH]. intros Hx.
  destruct (N.lt_ge_cases x 10%N) as [Hlt|Hge].
  - exists 1%N. intros acc s. rewrite pretty_N_go_step by lia.
    rewrite N.div_small, N.mod_small, pretty_N_go_0 by lia.
    cbn [digits]. rewrite digit_char by lia. do 2 f_equal. rewrite N.pow_1_r. lia.
  - destruct (IH (x `div` 10)%N) as [k Hk].
    + apply N.div_lt; lia.
    + apply N.div_str_pos; lia.
    + exists (N.succ k). intros acc s. rewrite pretty_N_go_step by lia.
      rewrite Hk. cbn [digits]. rewrite digit_char by (apply N.mod_lt; lia).
      do 2 f_equal. cbn [default from_option Datatypes.id]. rewrite N.pow_succ_r'.
      pose proof (N.div_mod' x 10%N). lia.
Qed.

Lemma digits_pretty (n : N) : digits None (pretty n) = Some n.
Proof.
  unfold pretty, pretty_N. destruct (decide (n = 0%N)) as [->|Hn]; [reflexivity|].
  destruct (digits_pretty_go n ltac:(lia)) as [k Hk]. rewrite Hk. reflexivity.
Qed.

Lemma trim_left_plain (a : ascii) (s : string) :
  Str.is_space a = false -> Str.trim_left (String a s) = String a s.
Proof. intros Ha. cbn [Str.trim_left]. now rewrite Ha. Qed.

Lemma trim_right_plain (a : ascii) (s : string) :
  Str.is_space a = false -> Str.is_empty (Str.trim_right (String a s)) = false.
Proof.
  intros Ha. cbn [Str.trim_right]. destruct (Str.trim_right s); [now rewrite Ha | reflexivity].
Qed.

Lemma trim_right_digits (s : string) :
  allDigits s = true -> Str.trim_right (s +:+ String Str.cr EmptyString) = s.
Proof.
  induction s as [|a s IH]; [reflexivity|]. cbn [allDigits].
  intros [Ha%bool_decide_eq_true_1 Hs]%andb_prop. destruct Ha as [d Hd].
  destruct (digit_plain a d Hd) as (Hsp & _).
  rewrite append_cons. cbn [Str.trim_right]. rewrite (IH Hs), Hsp.
  destruct s; reflexivity.
Qed.

(** [stoul] reads back a number written in decimal. *)
Lemma stoul_pretty (n : N) : (n < 2 ^ 64)%N -> stoul (pretty n) = Ok n.
Proof.
  intros Hn. pose proof (digits_pretty n) as D.
  destruct (pretty_allDigits n) as [A Hne].
  destruct (pretty n) as [|a s] eqn:P; [congruence|].
  cbn [allDigits] in A. apply andb_prop in A as [[d Hd]%bool_decide_eq_true_1 _].
  destruct (digit_plain a d Hd) as (Hsp & _ & Hminus & Hplus).
  unfold stoul. rewrite (trim_left_plain a s Hsp).
  assert (E : (let '(negative, s0) :=
                 match String a s with
                 | String "-"%char s' => (true, s')
                 | String "+"%char s' => (false, s')
                 | _ => (false, String a s)
                 end in
               match digits None s0 with
               | None => Thrown (Exn "stoul")
               | Some m =>
                   if (m <? 2 ^ 64)%N
                   then Ok (if negative then (2 ^ 64 - m) mod 2 ^ 64 else m)%N
                   else Thrown (Exn "stoul")
               end) =
              match digits None (String a s) with
              | None => Thrown (Exn "stoul")
              | Some m => if (m <? 2 ^ 64)%N then Ok m else Thrown (Exn "stoul")
              end).
  { clear -Hminus Hplus.
    destruct a as [[] [] [] [] [] [] [] []]; try reflexivity; discriminate. }
  rewrite E, D. destruct (N.ltb_spec n (2 ^ 64)); [reflexivity | lia].
Qed.

Section FrameReading.

Context `{External}.

(** The headers of a frame as [send] writes it: one content-length header
    and the empty line. *)
Lemma parseHeaders_framed (i : IStream) (n : N) (after : string) :
  good i = true ->
  unread i = "Content-Length: " +:+ pretty n +:+ Str.crlf +:+ Str.crlf +:+ after ->
  parseHeaders i = (Some {["content-length" := pretty n]}, fresh after).
Proof.
  intros G U. destruct (pretty_allDigits n) as [A Hne].
  set (l := "Content-Length: " +:+ pretty n +:+ String Str.cr EmptyString).
  assert (U1 : unread i = l +:+ String Str.nl (Str.crlf +:+ after)).
  { rewrite U. unfold l. now rewrite !append_assoc. }
  assert (N1 : Str.index_of Str.nl l = None).
  { unfold l. rewrite (index_of_append Str.nl "Content-Length: ") by reflexivity.
    assert (N2 : forall s, allDigits s = true ->
                 Str.index_of Str.nl (s +:+ String Str.cr EmptyString) = None).
    { induction s as [|a s IH]; [reflexivity|]. cbn [allDigits].
      intros [[d Hd]%bool_decide_eq_true_1 Hs]%andb_prop.
      destruct (digit_plain a d Hd) as (_ & Hnl & _).
      rewrite append_cons. cbn [Str.index_of]. now rewrite Hnl, (IH Hs). }
    now rewrite (N2 _ A). }
  assert (G1 : getline i = (l, fresh (Str.crlf +:+ after))) by now apply getline_line.
  assert (G2 : getline (fresh (Str.crlf +:+ after)) = (String Str.cr EmptyString, fresh after)).
  { apply getline_line; reflexivity. }
  assert (V : Str.trim_copy (Str.drop 15 l) = pretty n).
  { unfold l. change (Str.drop 15 ("Content-Length: " +:+ ?s)) with (String " " s).
    unfold Str.trim_copy. cbn [Str.trim_left]. change (Str.is_space " ") with true.
    cbn [Str.trim_left]. destruct (pretty n) as [|a s] eqn:P; [congruence|].
    cbn [allDigits] in A. pose proof A as A'.
    apply andb_prop in A' as [[d Hd]%bool_decide_eq_true_1 _].
    destruct (digit_plain a d Hd) as (Hsp & _).
    rewrite append_cons, (trim_left_plain a _ Hsp), <- append_cons.
    now apply trim_right_digits. }
  assert (L : parseHeadersLoop 2 ∅ i =
              Some (Some {["content-length" := pretty n]}, fresh after)).
  { cbn [parseHeadersLoop]. rewrite G1.
    assert (E : Str.is_empty (Str.trim_copy l) = false).
    { unfold l, Str.trim_copy. change ("Content-Length: " +:+ ?s) with (String "C" ("ontent-Length: " +:+ s)).
      rewrite trim_left_plain by reflexivity. now apply trim_right_plain. }
    rewrite E.
    assert (C : Str.index_of ":" l = Some 14%nat) by reflexivity.
    rewrite C, V.
    change (Str.to_lower_copy (Str.take 14 l)) with "content-length".
    rewrite G2. reflexivity. }
  pose proof (parseHeaders_loop i) as P.
  assert (B : exists b, S (String.length (unread i)) = (2 + b)%nat).
  { rewrite U. cbn [String.length]. eauto. }
  destruct B as [b B]. rewrite B in P.
  assert (Mono : forall bound extra headers i0 r,
            parseHeadersLoop bound headers i0 = Some r ->
            parseHeadersLoop (bound + extra) headers i0 = Some r).
  { induction bound as [|bound IH]; intros extra headers i0 r; [discriminate|].
    cbn [parseHeadersLoop Nat.add]. destruct (getline i0) as [l0 i1].
    destruct (Str.is_empty (Str.trim_copy l0)); [auto|].
    destruct (Str.index_of ":" l0); [|auto]. apply IH. }
  rewrite (Mono 2%nat b _ _ _ L) in P. now injection P as <-.
Qed.

(** [receive] on a frame as [send] writes it, followed by any bytes: the
    body, and nothing else, goes to the parser, and what follows the frame
    stays unread. *)
Lemma receive_framed (t : JSONTransport) (body rest : string) :
  good (m_input t) = true ->
  unread (m_input t) = framed body +:+ rest ->
  (N.of_nat (String.length body) < 2 ^ 64)%N ->
  receive t =
  let '(message, errs) := jsonParseStrict body in
  if Str.is_empty errs then (Ok (Some message), withInput (fresh rest) t)
  else (Ok None,
        error JNull ParseError ("Could not parse RPC JSON payload. " +:+ errs)
          (withInput (fresh rest) t)).
Proof.
  intros G U Hn.
  assert (P : parseHeaders (m_input t) =
              (Some {["content-length" := pretty (N.of_nat (String.length body))]},
               fresh (body +:+ rest))).
  { apply parseHeaders_framed; [exact G|]. rewrite U. unfold framed.
    now rewrite !append_assoc. }
  unfold receive, bind, modify, ret, lift. rewrite P. cbn [fst snd].
  rewrite lookup_singleton_eq, (stoul_pretty _ Hn), Nat2N.id.
  assert (R : readBytes (fresh (body +:+ rest)) (String.length body) = (body, fresh rest)).
  { unfold readBytes, fresh, good. cbn [eofbit failbit unread negb andb].
    rewrite length_append. destruct (Nat.leb_spec (String.length body)
                                       (String.length body + String.length rest)); [|lia].
    rewrite take_append.
    replace (String.length body) with (String.length body + 0)%nat at 1 by lia.
    now rewrite drop_append. }
  cbn [m_input withInput]. rewrite R.
  destruct (jsonParseStrict body) as [message errs].
  destruct (Str.is_empty errs); reflexivity.
Qed.

End FrameReading.

(** X10: what one transport sends, another receives.  When the bytes that
    [notify], [reply] or [error] flush into an empty output stream arrive on a
    good input stream, followed by any other bytes, [receive] passes exactly
    the serialized body to the parser, returns what the parser makes of it,
    and leaves the bytes after the frame unread. *)
Theorem sent_message_is_received `{External}
    (m : Outbound) (sender receiver : JSONTransport) (rest : string) :
  m_output sender = {| pending := EmptyString; flushed := EmptyString |} ->
  good (m_input receiver) = true ->
  unread (m_input receiver) = flushed (m_output (emit m sender)) +:+ rest ->
  (N.of_nat (String.length (jsonCompactPrint (envelope m))) < 2 ^ 64)%N ->
  receive receiver =
  let '(message, errs) := jsonParseStrict (jsonCompactPrint (envelope m)) in
  if Str.is_empty errs then (Ok (Some message), withInput (fresh rest) receiver)
  else (Ok None,
        error JNull ParseError ("Could not parse RPC JSON payload. " +:+ errs)
          (withInput (fresh rest) receiver)).
Proof.
  intros Hout G U Hn. apply receive_framed; [exact G | | exact Hn].
  rewrite U, emit_envelope. cbn [m_output withOutput delivered flushed]. now rewrite Hout.
Qed.

(** ** Positions and diagnostics in protocol form *)

(** X11: a line and column written by [toJson] is read back by
    [parseLineColumn] as the same line and column, except that a negative
    component comes back as zero: positions are clamped on the way out, not
    on the way in. *)
Theorem parseLineColumn_of_toJson (lc : LineColumn) :
  line lc <= Json.maxInt ->
  column lc <= Json.maxInt ->
  parseLineColumn (toJson lc) = Some (clamped lc).
Proof.
  intros Hl Hc. destruct lc as [l c]; cbn [line column] in *.
  change (toJson {| line := l; column := c |})
    with (JObject [("character", JInt (Z.max c 0)); ("line", JInt (Z.max l 0))]).
  unfold parseLineColumn, clamped; simpl.
  assert (Hmin : Json.minInt <= 0) by (unfold Json.minInt; lia).
  assert (Hmax : 0 <= Json.maxInt) by (unfold Json.maxInt; lia).
  destruct (Z.leb_spec Json.minInt (Z.max l 0)); [|lia].
  destruct (Z.leb_spec (Z.max l 0) Json.maxInt); [|lia].
  destruct (Z.leb_spec Json.minInt (Z.max c 0)); [|lia].
  destruct (Z.leb_spec (Z.max c 0) Json.maxInt); [|lia].
  reflexivity.
Qed.

(** X12: whatever range [toRange] emits has no negative line or character,
    and for a location without text it is the range from (0,0) to (0,0). *)
Theorem toRange_never_negative `{External}
    (c : CompilerStack) (location : SourceLocation) (range : Json) :
  toRange c location = Ok range ->
  exists l1 c1 l2 c2,
    range = rangeOf l1 c1 l2 c2
    /\ 0 <= l1 /\ 0 <= c1 /\ 0 <= l2 /\ 0 <= c2
    /\ (hasText location = false -> l1 = 0 /\ c1 = 0 /\ l2 = 0 /\ c2 = 0).
Proof.
  assert (R : forall a b,
             toJsonRange a b =
             rangeOf (Z.max (line a) 0) (Z.max (column a) 0)
               (Z.max (line b) 0) (Z.max (column b) 0)) by reflexivity.
  unfold toRange. destruct (hasText location) eqn:T; cbn [negb].
  - destruct (sourceName location) as [name|]; [|discriminate].
    destruct (charStream c name) as [stream|e]; [|discriminate]. cbn [andThen].
    intros [= <-]. rewrite R. eexists _, _, _, _. split; [reflexivity|].
    repeat split; try apply Z.le_max_r; discriminate.
  - intros [= <-]. exists 0, 0, 0, 0. repeat split; reflexivity || lia.
Qed.

Section Ranges.

Context `{External}.

Lemma relatedInformation_members (r : FileRepository) (c : CompilerStack) (e : Error)
    (range : Json) (infos : list (string * SourceLocation)) (items : list Json) (j : Json) :
  foldOutcome (relatedInformation r c) infos
    (JObject (diagnosticMembers e range [("relatedInformation", JArray items)])) = Ok j ->
  exists more,
    j = JObject (diagnosticMembers e range [("relatedInformation", JArray (items ++ more))])
    /\ length more = length infos.
Proof.
  revert items; induction infos as [|[m l] infos IH]; intros items; cbn [foldOutcome].
  - intros [= <-]. exists []. now rewrite app_nil_r.
  - unfold relatedInformation at 1.
    destruct (toJsonLocation r c l) as [location|x]; [|discriminate]. cbn [andThen].
    intros F. apply IH in F as (more & -> & Hlen).
    exists (Json.set "location" location (Json.set "message" (JString m) JNull) :: more).
    rewrite <- app_assoc. cbn [app length]. auto.
Qed.

End Ranges.

(** X13: the protocol form of a located diagnostic has exactly these
    members: the numeric code, the message made of the name of the kind, a
    colon and, when there is a comment, a space and the comment, the range of
    the location, the severity 1, 2 or 3, and the source [solc]; and, when
    the diagnostic has at least one secondary location, a
    [relatedInformation] array with one item for each of them. *)
Theorem diagnostic_members `{External}
    (r : FileRepository) (c : CompilerStack) (e : Error) (location : SourceLocation)
    (item : Json) :
  diagnostic r c e location = Ok item ->
  exists range related,
    toRange c location = Ok range
    /\ item = JObject (diagnosticMembers e range related)
    /\ match default [] (secondarySourceLocation e) with
       | [] => related = []
       | infos =>
           exists items, related = [("relatedInformation", JArray items)]
                         /\ length items = length infos
       end.
Proof.
  unfold diagnostic. destruct (toRange c location) as [range|x]; [|discriminate].
  cbn [andThen]. intros D. exists range.
  assert (J : forall message,
             Json.set "range" range
               (Json.set "message" (JString message)
                  (Json.set "code" (JInt (Z.of_N (errorId e)))
                     (Json.set "severity" (JInt (toDiagnosticSeverity (errorSeverity e)))
                        (Json.set "source" (JString "solc") JNull)))) =
             JObject [("code", JInt (Z.of_N (errorId e))); ("message", JString message);
                      ("range", range);
                      ("severity", JInt (toDiagnosticSeverity (errorSeverity e)));
                      ("source", JString "solc")]) by reflexivity.
  rewrite J in D.
  destruct (secondarySourceLocation e) as [[|[m l] infos]|]; cbn [default from_option Datatypes.id].
  - exists []. injection D as <-. repeat split; reflexivity.
  - cbn [foldOutcome] in D. unfold relatedInformation at 1 in D.
    destruct (toJsonLocation r c l) as [loc|x]; [|discriminate]. cbn [andThen] in D.
    apply (relatedInformation_members r c e range infos
             [Json.set "location" loc (Json.set "message" (JString m) JNull)]) in D
      as (more & -> & Hlen).
    eexists. split; [reflexivity|]. split; [reflexivity|].
    eexists. split; [reflexivity|]. cbn [app length]. now rewrite Hlen.
  - exists []. injection D as <-. repeat split; reflexivity.
Qed.

Section ReversedRange.

Context `{External}.

Lemma parsePosition_point (r : FileRepository) (name : string) (position : Json)
    (p : SourceLocation) :
  parsePosition r name position = Some p ->
  loc_end p = loc_start p /\ sourceName p = Some name.
Proof.
  unfold parsePosition. destruct (sourceUnits r !! name); [|discriminate].
  destruct (parseLineColumn position); [|discriminate].
  destruct (translateLineColumnToPosition _ _); [|discriminate].
  intros [= <-]. auto.
Qed.

End ReversedRange.

(** X14: a content change whose range ends before it starts is rejected: the
    two ends are not swapped and the range is not taken as empty.  The entry
    is answered with one [RequestFailed] error that shows the range, and the
    text of the document stays as it is. *)
Theorem didChange_reversed_range_rejected `{External}
    (s : LanguageServer) (id : MessageID) (uri stored text : string) (change : Json)
    (first last : SourceLocation) :
  Json.isObject change = true ->
  sourceUnits (m_fileRepository s)
    !! clientPathToSourceUnitName (basePath (m_fileRepository s)) uri = Some stored ->
  Json.asString (Json.member "text" change) = Ok text ->
  Json.isObject (Json.member "range" change) = true ->
  parsePosition (m_fileRepository s)
    (clientPathToSourceUnitName (basePath (m_fileRepository s)) uri)
    (Json.member "start" (Json.member "range" change)) = Some first ->
  parsePosition (m_fileRepository s)
    (clientPathToSourceUnitName (basePath (m_fileRepository s)) uri)
    (Json.member "end" (Json.member "range" change)) = Some last ->
  loc_start last < loc_start first ->
  contentChange id uri change s =
  (Ok Return,
   onClient (error id RequestFailed
               ("Invalid source range: " +:+ jsonCompactPrint (Json.member "range" change))) s).
Proof.
  intros O U T R Pf Pl Hlt. apply contentChange_failure.
  apply (InvalidSourceRange _ _ _ stored text O U T R).
  unfold parseRange. rewrite R, Pf, Pl. cbn [negb].
  destruct (parsePosition_point _ _ _ _ Pl) as [El _].
  unfold hasText. cbn [loc_start loc_end sourceName]. rewrite El.
  destruct (Z.leb_spec (loc_start first) (loc_start last)); [lia|].
  now rewrite andb_false_r.
Qed.

(** ** Publishing is all or nothing *)

Section AllOrNothing.

Context `{External}.



End AllOrNothing.


(** ** Runs on the sample collaborators *)

#[local] Existing Instance Sample.collaborators.

Lemma run_lifecycle_witness :
  let shutdown := Sample.request (JInt 1) "shutdown" JNull in
  let exit := Sample.notification "exit" JNull in
  let s := Sample.server (Sample.frame shutdown +:+ Sample.frame exit) in
  let t1 := (receive (m_client s)).2 in
  let t2 := (receive t1).2 in
  run 2 s =
  Some (Ok true,
        setExitRequested true
          (onClient (fun _ => t2) (setShutdownRequested true (onClient (fun _ => t1) s)))).
Proof.
  intros shutdown exit s t1 t2.
  apply (proj1 (proj2 (proj2 run_lifecycle)) 0%nat s shutdown exit t1 t2);
    vm_compute; reflexivity.
Defined.

Lemma receive_failure_reported_twice_witness :
  let s := Sample.server ("garbage" +:+ Str.crlf +:+ Str.crlf) in
  let first := ErrorResponse JNull ParseError "Could not parse RPC headers." in
  let second := ErrorResponse JNull ParseError "Error parsing JSONRPC request." in
  iteration s =
  (Ok tt, onClient (fun t => emit second (emit first (withInput (Sample.stream Str.crlf) t))) s).
Proof.
  intros s first second.
  apply (receive_failure_reported_twice s "Could not parse RPC headers."
           (Sample.stream Str.crlf)).
  apply MalformedHeaders. vm_compute. reflexivity.
Defined.

Lemma handler_exception_reported_without_id_witness :
  let message := Sample.request (JInt 7) "textDocument/didOpen" (JArray [JInt 1]) in
  let s := Sample.server (Sample.frame message) in
  let report :=
    ErrorResponse JNull InternalError ("Unhandled exception: " +:+ what Json.requiresObject) in
  Json.get "id" message = Ok (JInt 7)
  /\ iteration s = (Ok tt, onClient (emit report) (onClient (fun _ => (receive (m_client s)).2) s)).
Proof.
  intros message s report. split; [reflexivity|].
  apply (handler_exception_reported_without_id s _ (receive (m_client s)).2 message
           Json.requiresObject); vm_compute; reflexivity.
Defined.

Lemma offset_roundtrip_witness :
  let text := "a" +:+ String Str.nl "bc" in
  let r := {| basePath := "/"; sourceUnitNamesToClientPaths := ∅;
              sourceUnits := {["A.sol" := text]} |} in
  let c := {| sources := {["A.sol" := text]}; errors := [] |} in
  translateLineColumnToPosition text (translatePositionToLineColumn text 3) = Some 3
  /\ exists range,
       toRange c (point 3 "A.sol") = Ok range
       /\ parsePosition r "A.sol" (Json.member "start" range) = Some (point 3 "A.sol")
       /\ parsePosition r "A.sol" (Json.member "end" range) = Some (point 3 "A.sol").
Proof.
  intros text r c.
  apply (offset_roundtrip r c "A.sol" text 3);
    [vm_compute; reflexivity | vm_compute; reflexivity | vm_compute; split; discriminate
    | vm_compute; discriminate].
Defined.

Lemma didChange_rejected_entry_witness :
  let s := holding "abc" in
  let s1 := onFileRepository (setSourceByClientPath "A.sol" "xyz") s in
  handleTextDocumentDidChange (JInt 4) brokenBatch s =
    (Ok tt, onClient (error (JInt 4) RequestFailed "Invalid content reference.") s1)
  /\ (exists f, s1 = onFileRepository f s)
  /\ ([JObject [("text", JString "xyz")]] = [] -> s1 = s).
Proof.
  intros s s1.
  apply (didChange_rejected_entry s s1 (JInt 4) brokenBatch (JObject [("uri", JString "A.sol")])
           "A.sol" "Invalid content reference." [JObject [("text", JString "xyz")]] []
           (JInt 5)).
  - reflexivity.
  - reflexivity.
  - reflexivity.
  - vm_compute. reflexivity.
  - apply InvalidContentReference. reflexivity.
Defined.

(** C1 fails on the code: the second entry of [brokenBatch] is rejected with
    [RequestFailed], and the text stored for [A.sol] afterwards is the one the
    first entry put there, not the text from before the batch. *)
Lemma didChange_failed_batch_keeps_first_edit :
  let s := holding "abc" in
  let s' := (handleTextDocumentDidChange (JInt 4) brokenBatch s).2 in
  m_client s' = error (JInt 4) RequestFailed "Invalid content reference." (m_client s)
  /\ sourceUnits (m_fileRepository s) !! "A.sol" = Some "abc"
  /\ sourceUnits (m_fileRepository s') !! "A.sol" = Some "xyz"
  /\ sourceUnits (m_fileRepository s') !! "A.sol" <> sourceUnits (m_fileRepository s) !! "A.sol".
Proof.
  vm_compute. repeat split; discriminate.
Qed.

Lemma initialize_ignores_rootPath_witness :
  exists s',
    handleInitialize (JInt 2) (JObject [("rootPath", JString "/home/user/project")])
      (Sample.server EmptyString) = (Ok tt, s')
    /\ basePath (m_fileRepository s') = "/".
Proof.
  apply (initialize_ignores_rootPath (Sample.server EmptyString) (JInt 2)
           (JObject [("rootPath", JString "/home/user/project")]) "/home/user/project");
    reflexivity.
Defined.

Lemma didOpen_without_textDocument_continues_witness :
  let s := Sample.server EmptyString in
  let s1 := onClient (error (JInt 3) RequestFailed "Text document parameter missing.") s in
  let s2 := onFileRepository (setSourceByClientPath EmptyString EmptyString) s1 in
  handleTextDocumentDidOpen (JInt 3) (JObject []) s = compileAndUpdateDiagnostics s2
  /\ sourceUnits (m_fileRepository (handleTextDocumentDidOpen (JInt 3) (JObject []) s).2)
       !! EmptyString = Some EmptyString
  /\ m_compilerStack (handleTextDocumentDidOpen (JInt 3) (JObject []) s).2
       = analyse (<[EmptyString := EmptyString]> (sourceUnits (m_fileRepository s))).
Proof.
  intros s s1 s2.
  exact (didOpen_without_textDocument_continues s (JInt 3) (JObject []) eq_refl).
Defined.

(** On the sample collaborators the notification without [textDocument] is
    answered by the error and by a publication for the document with the
    empty name. *)
Example didOpen_without_textDocument_publishes :
  let s := Sample.server EmptyString in
  let warning :=
    JObject [("code", JInt 1878);
             ("message",
              JString "Warning: SPDX license identifier not provided in source file.");
             ("range", rangeOf 0 0 0 0); ("severity", JInt 2); ("source", JString "solc")] in
  let params := JObject [("diagnostics", JArray [warning]); ("uri", JString EmptyString)] in
  m_client (handleTextDocumentDidOpen (JInt 3) (JObject []) s).2 =
  emit (Notification "textDocument/publishDiagnostics" params)
    (emit (ErrorResponse (JInt 3) RequestFailed "Text document parameter missing.")
       (m_client s)).
Proof. vm_compute. reflexivity. Qed.


Lemma didChange_contract_to_library_witness :
  let s := holding "contract C {}" in
  sourceUnits
    (m_fileRepository
       (handleTextDocumentDidChange JNull (rangeChange "A.sol" (rangeOf 0 0 0 8) "library") s).2)
    !! "A.sol" = Some "library C {}"
  /\ handleTextDocumentDidChange JNull (rangeChange "A.sol" (rangeOf 0 9 0 17) "library") s =
     (Ok tt,
      onClient (error JNull RequestFailed
                  ("Invalid source range: " +:+ jsonCompactPrint (rangeOf 0 9 0 17))) s).
Proof.
  intros s.
  assert (Hs : sourceUnits (m_fileRepository s) !! "A.sol" = Some "contract C {}")
    by (vm_compute; reflexivity).
  exact (didChange_contract_to_library s JNull "A.sol" Hs).
Defined.

(** C7 fails on the code: after [A.sol] is opened with [contract C {}], the
    change of the range from (0,9) to (0,17) is rejected, and the stored text
    is still [contract C {}], not [library C {}]. *)
Lemma didChange_example_range_rejected :
  let opened :=
    (handleTextDocumentDidOpen JNull
       (JObject [("textDocument",
                  JObject [("text", JString "contract C {}"); ("uri", JString "A.sol")])])
       (Sample.server EmptyString)).2 in
  let changed :=
    (handleTextDocumentDidChange JNull
       (rangeChange "A.sol" (rangeOf 0 9 0 17) "library") opened).2 in
  sourceUnits (m_fileRepository opened) !! "A.sol" = Some "contract C {}"
  /\ sourceUnits (m_fileRepository changed) !! "A.sol" = Some "contract C {}"
  /\ sourceUnits (m_fileRepository changed) !! "A.sol" <> Some "library C {}"
  /\ m_client changed =
     error JNull RequestFailed
       ("Invalid source range: " +:+ jsonCompactPrint (rangeOf 0 9 0 17)) (m_client opened).
Proof.
  vm_compute. repeat split; discriminate.
Qed.

Lemma handling_keeps_input_and_flags_witness :
  let message := Sample.request (JInt 1) "shutdown" JNull in
  let s := Sample.server "unread" in
  let handling :=
    tryCatch (dispatch message)
      (fun e => modify (onClient (error JNull InternalError
                                    ("Unhandled exception: " +:+ what e)))) in
  (handling s).1 = Ok tt
  /\ m_input (m_client (handling s).2) = m_input (m_client s)
  /\ (m_shutdownRequested s = true -> m_shutdownRequested (handling s).2 = true)
  /\ (m_exitRequested s = true -> m_exitRequested (handling s).2 = true).
Proof.
  exact (handling_keeps_input_and_flags (Sample.request (JInt 1) "shutdown" JNull)
           (Sample.server "unread")).
Defined.

Lemma content_length_exception_leaves_run_witness :
  let s := Sample.server ("Content-Length: abc" +:+ Str.crlf +:+ Str.crlf) in
  let s' := onClient (withInput (fresh EmptyString)) s in
  iteration s = (Thrown (Exn "stoul"), s')
  /\ (m_exitRequested s = false -> closed (m_client s) = false ->
      forall bound, run (S bound) s = Some (Thrown (Exn "stoul"), s')).
Proof.
  intros s s'.
  apply (content_length_exception_leaves_run s {["content-length" := "abc"]}
           (fresh EmptyString) "abc" (Exn "stoul")).
  - vm_compute. reflexivity.
  - apply lookup_singleton_eq.
  - reflexivity.
Defined.

Lemma run_after_shutdown_witness :
  let s := setShutdownRequested true
             (Sample.server (Sample.frame (Sample.notification "exit" JNull))) in
  let s' := setExitRequested true (onClient (fun _ => (receive (m_client s)).2) s) in
  run 1 s = Some (Ok true, s') /\ true = true.
Proof.
  intros s s'.
  assert (R : run 1 s = Some (Ok true, s')) by (vm_compute; reflexivity).
  split; [exact R|].
  apply (run_after_shutdown 1 s s' true); [reflexivity | exact R].
Defined.


Lemma unknown_method_reported_witness :
  let members := [("id", JInt 9); ("jsonrpc", JString "2.0"); ("method", JString "foo/bar")] in
  let s := Sample.server EmptyString in
  dispatch (JObject members) s =
  (Ok tt, onClient (error (JInt 9) MethodNotFound "Unknown method foo/bar") s).
Proof.
  intros members s.
  apply (unknown_method_reported members "foo/bar" s); [reflexivity|].
  apply (bool_decide_unpack _). vm_compute. exact I.
Defined.

Lemma inert_method_changes_nothing_witness :
  let members := [("jsonrpc", JString "2.0"); ("method", JString "textDocument/didClose");
                  ("params", JObject [("textDocument", JObject [("uri", JString "A.sol")])])] in
  dispatch (JObject members) (holding "abc") = (Ok tt, holding "abc").
Proof.
  intros members.
  apply (inert_method_changes_nothing members "textDocument/didClose" (holding "abc"));
    [reflexivity|].
  apply (bool_decide_unpack _). vm_compute. exact I.
Defined.

Lemma initialize_with_rootUri_witness :
  let members := [("rootUri", JString "file:///home/user/project")] in
  let s := Sample.server EmptyString in
  handleInitialize (JInt 2) (JObject members) s =
  (Ok tt,
   onClient (reply (JInt 2) initializeResult)
     (onFileRepository (setBasePath "/home/user/project") s)).
Proof.
  intros members s.
  exact (initialize_with_rootUri members (JString "file:///home/user/project")
           "file:///home/user/project" (JInt 2) s eq_refl eq_refl eq_refl).
Defined.

Lemma didChange_without_changes_witness :
  let args := JObject [("contentChanges", JArray []);
                       ("textDocument", JObject [("uri", JString "unknown.sol")])] in
  handleTextDocumentDidChange JNull args (holding "abc")
  = compileAndUpdateDiagnostics (holding "abc").
Proof.
  intros args.
  apply (didChange_without_changes (holding "abc") JNull args
           (JObject [("uri", JString "unknown.sol")]) (JString "unknown.sol") (JArray [])
           "unknown.sol"); reflexivity.
Defined.

Lemma run_at_end_of_input_witness :
  let s := Sample.server EmptyString in
  closed (m_client s) = false
  /\ run 1 s =
     Some (Ok false,
           onClient (fun t =>
                       emit (ErrorResponse JNull ParseError "Error parsing JSONRPC request.")
                         (emit (ErrorResponse JNull ParseError "No content-length header found.")
                            (withInput atEnd t))) s).
Proof.
  intros s. apply (run_at_end_of_input s 0); [|reflexivity].
  unfold exhausted. vm_compute. auto.
Defined.

Lemma sent_message_is_received_witness :
  let m := Notification "exit" JNull in
  let sender := {| m_input := fresh EmptyString; m_output := Sample.emptyOutput |} in
  let receiver :=
    {| m_input := fresh (flushed (m_output (emit m sender)) +:+ "more");
       m_output := Sample.emptyOutput |} in
  receive receiver =
  let '(message, errs) := jsonParseStrict (jsonCompactPrint (envelope m)) in
  if Str.is_empty errs then (Ok (Some message), withInput (fresh "more") receiver)
  else (Ok None,
        error JNull ParseError ("Could not parse RPC JSON payload. " +:+ errs)
          (withInput (fresh "more") receiver)).
Proof.
  intros m sender receiver.
  apply (sent_message_is_received m sender receiver "more");
    [reflexivity | reflexivity | reflexivity | vm_compute; reflexivity].
Defined.

Lemma parseLineColumn_of_toJson_witness :
  parseLineColumn (toJson {| line := -1; column := 5 |}) = Some {| line := 0; column := 5 |}.
Proof.
  apply (parseLineColumn_of_toJson {| line := -1; column := 5 |}); vm_compute; discriminate.
Defined.

Lemma toRange_never_negative_witness :
  let c := {| sources := ∅; errors := [] |} in
  let location := {| loc_start := -1; loc_end := -1; sourceName := Some "A.sol" |} in
  exists l1 c1 l2 c2,
    rangeOf 0 0 0 0 = rangeOf l1 c1 l2 c2
    /\ 0 <= l1 /\ 0 <= c1 /\ 0 <= l2 /\ 0 <= c2
    /\ (hasText location = false -> l1 = 0 /\ c1 = 0 /\ l2 = 0 /\ c2 = 0).
Proof.
  intros c location. apply (toRange_never_negative c location (rangeOf 0 0 0 0)). reflexivity.
Defined.

Lemma diagnostic_members_witness :
  let r := m_fileRepository (holding "contract C {}") in
  let c := analyse (sourceUnits r) in
  let location := {| loc_start := -1; loc_end := -1; sourceName := Some "A.sol" |} in
  let e := {| errorSeverity := SeverityWarning; errorId := 1878; typeName := "Warning";
              comment := Some "SPDX license identifier not provided in source file.";
              sourceLocation := Some location; secondarySourceLocation := None |} in
  exists range related,
    toRange c location = Ok range
    /\ JObject (diagnosticMembers e (rangeOf 0 0 0 0) []) = JObject (diagnosticMembers e range related)
    /\ match default [] (secondarySourceLocation e) with
       | [] => related = []
       | infos =>
           exists items, related = [("relatedInformation", JArray items)]
                         /\ length items = length infos
       end.
Proof.
  intros r c location e.
  apply (diagnostic_members r c e location (JObject (diagnosticMembers e (rangeOf 0 0 0 0) []))).
  reflexivity.
Defined.

Lemma didChange_reversed_range_rejected_witness :
  let change := JObject [("range", rangeOf 0 2 0 1); ("text", JString "x")] in
  let s := holding "abc" in
  contentChange JNull "A.sol" change s =
  (Ok Return,
   onClient (error JNull RequestFailed
               ("Invalid source range: " +:+ jsonCompactPrint (rangeOf 0 2 0 1))) s).
Proof.
  intros change s.
  assert (U : sourceUnits (m_fileRepository s)
                !! clientPathToSourceUnitName (basePath (m_fileRepository s)) "A.sol"
              = Some "abc") by (vm_compute; reflexivity).
  assert (Pf : parsePosition (m_fileRepository s)
                 (clientPathToSourceUnitName (basePath (m_fileRepository s)) "A.sol")
                 (Json.member "start" (Json.member "range" change)) = Some (point 2 "A.sol"))
    by (vm_compute; reflexivity).
  assert (Pl : parsePosition (m_fileRepository s)
                 (clientPathToSourceUnitName (basePath (m_fileRepository s)) "A.sol")
                 (Json.member "end" (Json.member "range" change)) = Some (point 1 "A.sol"))
    by (vm_compute; reflexivity).
  exact (didChange_reversed_range_rejected s JNull "A.sol" "abc" "x" change
           (point 2 "A.sol") (point 1 "A.sol") eq_refl U eq_refl eq_refl Pf Pl
           ltac:(vm_compute; reflexivity)).
Defined.

